(** * telegram_signal_parser: a shallow embedding and its verified properties

    The Python module [telegram_signal_parser.py] turns chat messages into
    trade commands ([parse_message]), links every command to an order through
    the reply chain ([link_message_to_order]) and remembers which message ids
    were handled ([mark_processed]).

    Modelling conventions.
    - A Python [str] is a [string]; its characters stand for the code points
      U+0000..U+00FF.  Character classes ([\s], [\d], [\w], [str.upper]) are
      Python's Unicode ones restricted to that range.
    - A [float] is an IEEE 754 binary64 ([Float]).  The program builds floats
      only from the literal [0.0] and by [float] on an unsigned decimal
      literal, and never computes with them.  A finite double is kept as
      its exact value, a rational in lowest terms; [float] rounds to the
      nearest double, ties to even, with gradual underflow and overflow to
      infinity.  The negative zero and NaN, which no text matched by
      [PRICE_RE] denotes, are left out.
    - A regular expression is a value of [regex], run by a backtracking
      matcher with the priorities of Python's [re] (leftmost start, greedy or
      lazy repetition, first alternative first).
    - Dictionaries whose order is irrelevant are [gmap]s; the dedup table,
      whose insertion order decides ties when it is sorted, is an association
      list.  [int(time.time())] reads a clock carried by the state.
    - The two persisted documents are the in-memory ones: every mutation
      rewrites the whole file, so saving and reloading are not modelled. *)

From Stdlib Require Import ZArith QArith Qabs Qpower Ascii String List Bool Lia.
From Stdlib Require Import DecimalString DecimalZ DecimalPos Permutation Sorted.
From stdpp Require Import gmap strings sorting.

Local Open Scope Z_scope.
#[local] Arguments String.append !_ _ / : simpl nomatch.

(** ** Characters *)

Definition code (c : ascii) : N := N_of_ascii c.

Definition in_range (lo hi : N) (c : ascii) : bool :=
  (N.leb lo (code c) && N.leb (code c) hi)%bool.

Definition is_code (n : N) (c : ascii) : bool := N.eqb (code c) n.

(** [str.isspace] / [\s]: TAB..CR, FS..US, space, NEL, NBSP. *)
Definition is_space (c : ascii) : bool :=
  in_range 9 13 c || in_range 28 32 c || is_code 133 c || is_code 160 c.

(** [\d] *)
Definition is_digit (c : ascii) : bool := in_range 48 57 c.

(** [[A-Z]] *)
Definition is_AZ (c : ascii) : bool := in_range 65 90 c.

Definition is_az (c : ascii) : bool := in_range 97 122 c.

(** [\w]: alphanumeric code points and the underscore. *)
Definition is_word (c : ascii) : bool :=
  is_digit c || is_AZ c || is_az c || is_code 95 c
  || is_code 170 c || is_code 178 c || is_code 179 c || is_code 181 c
  || is_code 185 c || is_code 186 c || in_range 188 190 c
  || in_range 192 214 c || in_range 216 246 c || in_range 248 255 c.

Definition any_char (_ : ascii) : bool := true.

(** [str.upper] on one code point.  U+00DF becomes "SS"; U+00B5 and U+00FF,
    whose capitals lie above U+00FF, are kept: the capital is, like the
    original, a word character that is neither a digit nor in [[A-Z]]. *)
Definition upper_char (c : ascii) : string :=
  if is_az c || in_range 224 246 c || in_range 248 254 c
  then String (ascii_of_N (code c - 32)) EmptyString
  else if is_code 223 c then "SS"
  else String c EmptyString.

(** ** Strings *)

Fixpoint upper (s : string) : string :=
  match s with
  | EmptyString => EmptyString
  | String c r => upper_char c +:+ upper r
  end.

(** [s.replace(old, new)] for a one-character [old]. *)
Fixpoint replace (old : ascii) (new : string) (s : string) : string :=
  match s with
  | EmptyString => EmptyString
  | String c r =>
      if Ascii.eqb c old then new +:+ replace old new r
      else String c (replace old new r)
  end.

Fixpoint lstrip (s : string) : string :=
  match s with
  | EmptyString => EmptyString
  | String c r => if is_space c then lstrip r else s
  end.

Fixpoint rstrip (s : string) : string :=
  match s with
  | EmptyString => EmptyString
  | String c r =>
      match rstrip r with
      | EmptyString => if is_space c then EmptyString else String c EmptyString
      | r' => String c r'
      end
  end.

(** [s.strip()] *)
Definition strip (s : string) : string := rstrip (lstrip s).

(** [sub in t] *)
Fixpoint str_in (sub t : string) : bool :=
  String.prefix sub t ||
  match t with
  | EmptyString => false
  | String _ r => str_in sub r
  end.

Fixpoint find_from (i : Z) (sub t : string) : Z :=
  if String.prefix sub t then i
  else match t with
       | EmptyString => -1
       | String _ r => find_from (i + 1) sub r
       end.

(** [t.find(sub)] *)
Definition find (sub t : string) : Z := find_from 0 sub t.

(** Truth value of a [str]. *)
Definition nonempty (s : string) : bool :=
  match s with EmptyString => false | _ => true end.

(** [str(n)] for an [int]. *)
Definition str (n : Z) : string := NilZero.string_of_int (Z.to_int n).

(** ** Floats *)

Inductive Float : Type :=
| Finite (q : Q)              (* a finite double, by its exact value *)
| Infinity (negative : bool). (* inf, -inf *)

Declare Scope float_scope.
Delimit Scope float_scope with F.
Bind Scope float_scope with Float.

(** [0.0] *)
Notation "0" := (Finite 0%Q) : float_scope.

(** [x <= y] *)
Definition Fleb (x y : Float) : bool :=
  match x, y with
  | Finite a, Finite b => Qle_bool a b
  | Finite _, Infinity negative => negb negative
  | Infinity negative, Finite _ => negative
  | Infinity negative, Infinity negative' => negative || negb negative'
  end.

(** Truth value of a float: [x != 0.0]. *)
Definition truthy (x : Float) : bool :=
  match x with
  | Finite q => negb (Qeq_bool q 0)
  | Infinity _ => true
  end.

(** Nearest integer to a non-negative rational, ties to even. *)
Definition round_half_even (q : Q) : Z :=
  let n := Qnum q in
  let d := Zpos (Qden q) in
  let fl := n / d in
  let r2 := 2 * (n mod d) in
  if r2 <? d then fl
  else if d <? r2 then fl + 1
  else if Z.even fl then fl else fl + 1.

(** [floor (log2 x)] for a positive rational. *)
Definition ilog2 (x : Q) : Z :=
  let l := Z.log2 (Qnum x) - Z.log2 (Zpos (Qden x)) in
  if Qle_bool (2 ^ l) x then l else l - 1.

(** The double nearest to a rational, ties to even.  The magnitude of a
    double is an integer of at most 53 bits times a power of two that is at
    least 2^-1074; a magnitude that rounds to 2^1024 or more is infinite. *)
Definition round_binary64 (x : Q) : Float :=
  if Qeq_bool x 0 then 0%F
  else
    let negative := Qnum x <? 0 in
    let a := Qabs x in
    let e := Z.max (ilog2 a - 52) (-1074) in
    let v := (inject_Z (round_half_even (a / 2 ^ e)) * 2 ^ e)%Q in
    if Qle_bool (2 ^ 1024) v then Infinity negative
    else Finite (Qred (if negative then - v else v)).

(** ** Decimal literals *)

Definition digit_val (c : ascii) : Z := Z.of_N (code c) - 48.

Fixpoint digits_val (acc : Z) (s : string) : Z :=
  match s with
  | EmptyString => acc
  | String c r => digits_val (10 * acc + digit_val c) r
  end.

Fixpoint split_dot (s : string) : string * string :=
  match s with
  | EmptyString => (EmptyString, EmptyString)
  | String c r =>
      if is_code 46 c then (EmptyString, r)
      else let (a, b) := split_dot r in (String c a, b)
  end.

(** The number a literal matched by [PRICE_RE] denotes: digits, then
    optionally a point and digits. *)
Definition literal_value (lit : string) : Q :=
  let (ip, fp) := split_dot lit in
  Qmake (digits_val 0 (ip +:+ fp))
        (Z.to_pos (10 ^ Z.of_nat (String.length fp))).

(** [float(lit)] for a literal matched by [PRICE_RE]. *)
Definition float (lit : string) : Float := round_binary64 (literal_value lit).

(** ** Regular expressions *)

Inductive regex : Type :=
| Eps
| Cls (p : ascii -> bool)       (* one character of a class *)
| WordB                         (* \b *)
| Cat (r1 r2 : regex)
| Opt (r : regex)               (* r?   *)
| Star (p : ascii -> bool)      (* [p]*  greedy *)
| LazyStar (p : ascii -> bool)  (* [p]*? lazy *)
| Group (n : nat) (r : regex).  (* n-th capturing group *)

Fixpoint Lit (s : string) : regex :=
  match s with
  | EmptyString => Eps
  | String c r => Cat (Cls (Ascii.eqb c)) (Lit r)
  end.

Fixpoint Seq (rs : list regex) : regex :=
  match rs with
  | [] => Eps
  | r :: rs' => Cat r (Seq rs')
  end.

(** [[p]+] *)
Definition Plus (p : ascii -> bool) : regex := Cat (Cls p) (Star p).

(** Captured groups, most recent first. *)
Definition caps : Type := list (nat * string).

(** A continuation receives the character before the position, the rest of
    the subject and the groups captured so far. *)
Definition cont : Type := option ascii -> string -> caps -> option caps.

Definition word_at (c : option ascii) : bool :=
  match c with Some a => is_word a | None => false end.

Definition head_char (s : string) : option ascii :=
  match s with EmptyString => None | String c _ => Some c end.

(** The text between two positions of the subject, given the rests there. *)
Definition consumed (s s' : string) : string :=
  String.substring 0 (String.length s - String.length s') s.

Fixpoint star_greedy (p : ascii -> bool) (k : cont)
    (prev : option ascii) (s : string) (cs : caps) : option caps :=
  match s with
  | String c r =>
      if p c then
        match star_greedy p k (Some c) r cs with
        | Some res => Some res
        | None => k prev s cs
        end
      else k prev s cs
  | EmptyString => k prev s cs
  end.

Fixpoint star_lazy (p : ascii -> bool) (k : cont)
    (prev : option ascii) (s : string) (cs : caps) : option caps :=
  match k prev s cs with
  | Some res => Some res
  | None =>
      match s with
      | String c r => if p c then star_lazy p k (Some c) r cs else None
      | EmptyString => None
      end
  end.

Fixpoint rmatch (r : regex) (k : cont)
    (prev : option ascii) (s : string) (cs : caps) : option caps :=
  match r with
  | Eps => k prev s cs
  | Cls p =>
      match s with
      | String c s' => if p c then k (Some c) s' cs else None
      | EmptyString => None
      end
  | WordB =>
      if xorb (word_at prev) (word_at (head_char s)) then k prev s cs else None
  | Cat r1 r2 => rmatch r1 (rmatch r2 k) prev s cs
  | Opt r1 =>
      match rmatch r1 k prev s cs with
      | Some res => Some res
      | None => k prev s cs
      end
  | Star p => star_greedy p k prev s cs
  | LazyStar p => star_lazy p k prev s cs
  | Group n r1 =>
      rmatch r1 (fun prev' s' cs' => k prev' s' ((n, consumed s s') :: cs'))
             prev s cs
  end.

Definition accept : cont := fun _ _ cs => Some cs.

(** Does the pattern match starting exactly here? *)
Definition match_here (r : regex) (prev : option ascii) (s : string)
  : option caps := rmatch r accept prev s [].

Fixpoint search_from (r : regex) (prev : option ascii) (s : string)
  : option caps :=
  match match_here r prev s with
  | Some cs => Some cs
  | None =>
      match s with
      | String c s' => search_from r (Some c) s'
      | EmptyString => None
      end
  end.

(** [re.search(r, s)] *)
Definition re_search (r : regex) (s : string) : option caps :=
  search_from r None s.

(** [m.group(n)] *)
Fixpoint group (n : nat) (cs : caps) : string :=
  match cs with
  | [] => EmptyString
  | (i, g) :: cs' => if Nat.eqb i n then g else group n cs'
  end.

(** ** Models *)

Inductive Action : Type := OPEN | UPDATE | CANCEL.

Inductive OrderType : Type :=
  MARKET | BUY_LIMIT | SELL_LIMIT | BUY_STOP | SELL_STOP.

Inductive Side : Type := BUY | SELL.

Record Command : Type := {
  cmd_id : string;
  action : Action;
  symbol : string;
  type : OrderType;
  side : Side;
  entry : Float;
  sl : Float;
  tp : Float;
  old_entry : Float;
  order_id : string;
  meta : option (Z * string)     (* tg_id, kind *)
}.

(** What the program reads of a Telethon [Message]. *)
Record Message : Type := {
  msg_id : Z;
  message : option string;
  reply_to_msg_id : option Z
}.

(** ** Parsing helpers *)

(** [(?:\d+(?:\.\d+)?)] *)
Definition PRICE_RE : regex :=
  Cat (Plus is_digit) (Opt (Cat (Lit ".") (Plus is_digit))).

Definition AZ3 : regex := Seq [Cls is_AZ; Cls is_AZ; Cls is_AZ].

Definition AZ6 : regex :=
  Seq [Cls is_AZ; Cls is_AZ; Cls is_AZ; Cls is_AZ; Cls is_AZ; Cls is_AZ].

(** [\b([A-Z]{3})\s*/\s*([A-Z]{3})\b] *)
Definition re_pair : regex :=
  Seq [WordB; Group 1 AZ3; Star is_space; Lit "/"; Star is_space;
       Group 2 AZ3; WordB].

(** [\b([A-Z]{6})\b] *)
Definition re_six : regex := Seq [WordB; Group 1 AZ6; WordB].

(** [PREZZO\s+(PRICE_RE)] *)
Definition re_entry : regex :=
  Seq [Lit "PREZZO"; Plus is_space; Group 1 PRICE_RE].

(** [STOP\s*LOSS.*?\b(PRICE_RE)\b] with DOTALL *)
Definition re_sl : regex :=
  Seq [Lit "STOP"; Star is_space; Lit "LOSS"; LazyStar any_char;
       WordB; Group 1 PRICE_RE; WordB].

(** [TAKE\s*PROFIT.*?\b(PRICE_RE)\b] with DOTALL *)
Definition re_tp : regex :=
  Seq [Lit "TAKE"; Star is_space; Lit "PROFIT"; LazyStar any_char;
       WordB; Group 1 PRICE_RE; WordB].

(** [MODIFICARE\s+IL\s+PREZZO\s+DI\s+INGRESSO\s+DA\s+(PRICE_RE)\s+A\s+(PRICE_RE)] *)
Definition re_update : regex :=
  Seq [Lit "MODIFICARE"; Plus is_space; Lit "IL"; Plus is_space;
       Lit "PREZZO"; Plus is_space; Lit "DI"; Plus is_space;
       Lit "INGRESSO"; Plus is_space; Lit "DA"; Plus is_space;
       Group 1 PRICE_RE; Plus is_space; Lit "A"; Plus is_space;
       Group 2 PRICE_RE].

(** [\bANNULLARE\b] *)
Definition re_cancel : regex := Seq [WordB; Lit "ANNULLARE"; WordB].

(** [\(\s*(PRICE_RE)\s*\)] *)
Definition re_paren : regex :=
  Seq [Lit "("; Star is_space; Group 1 PRICE_RE; Star is_space; Lit ")"].

Section Parser.

(** The configured symbol suffix ([SYMBOL_POSTFIX], "-STD" by default). *)
Variable SYMBOL_POSTFIX : string.

Definition normalize_symbol (raw : string) : string :=
  let s := upper (strip raw) in
  let s := replace " " "" s in
  let s := replace "/" "" s in
  s +:+ SYMBOL_POSTFIX.

Definition extract_symbol (text : string) : option string :=
  match re_search re_pair (upper text) with
  | Some m => Some (normalize_symbol (group 1 m +:+ group 2 m))
  | None =>
      match re_search re_six (upper text) with
      | Some m => Some (normalize_symbol (group 1 m))
      | None => None
      end
  end.

Definition extract_side (text : string) : option Side :=
  let t := upper text in
  if str_in "BUY" t && negb (str_in "SELL" t) then Some BUY
  else if str_in "SELL" t && negb (str_in "BUY" t) then Some SELL
  else
    let i_buy := find "BUY" t in
    let i_sell := find "SELL" t in
    if negb (i_buy =? -1) && negb (i_sell =? -1)
    then Some (if i_buy <? i_sell then BUY else SELL)
    else None.

Definition extract_pending_type (text : string) : option OrderType :=
  let t := upper text in
  if str_in "BUY LIMIT" t then Some BUY_LIMIT
  else if str_in "SELL LIMIT" t then Some SELL_LIMIT
  else if str_in "BUY STOP" t then Some BUY_STOP
  else if str_in "SELL STOP" t then Some SELL_STOP
  else None.

Record Values : Type := { v_entry : Float; v_sl : Float; v_tp : Float }.

Definition first_price (r : regex) (t : string) : Float :=
  match re_search r t with
  | Some m => float (group 1 m)
  | None => 0
  end.

Definition extract_entry_sl_tp (text : string) : Values :=
  let t := upper text in
  {| v_entry := first_price re_entry t;
     v_sl := first_price re_sl t;
     v_tp := first_price re_tp t |}.

(** The result is [(old_entry, new_entry)]. *)
Definition parse_update (text : string) : option (Float * Float) :=
  let t := replace "," "." (upper text) in
  match re_search re_update t with
  | None => None
  | Some m => Some (float (group 1 m), float (group 2 m))
  end.

Record Cancel : Type := {
  c_symbol : string; c_type : OrderType; c_side : Side; c_entry : Float
}.

Definition parse_cancel (text : string) : option Cancel :=
  let t := replace "," "." (upper text) in
  match re_search re_cancel t with
  | None => None
  | Some _ =>
      let ptype := extract_pending_type t in
      let side := extract_side t in
      let sym := extract_symbol t in
      let entry := first_price re_paren t in
      match ptype, side, sym with
      | Some pt, Some sd, Some sy =>
          if nonempty sy
          then Some {| c_symbol := sy; c_type := pt; c_side := sd;
                       c_entry := entry |}
          else None
      | _, _, _ => None
      end
  end.

Definition is_market_direct (text : string) : bool :=
  let t := upper text in
  (str_in "DIRETTA" t && str_in "MERCATO" t) || str_in "ESECUZIONE A MERCATO" t.

(** ** Main parser *)

Definition parse_text (id : Z) (t : string) : option Command :=
  let cid := "tg_" +:+ str id in
  match parse_cancel t with
  | Some cancel =>
      Some {| cmd_id := cid; action := CANCEL; symbol := c_symbol cancel;
              type := c_type cancel; side := c_side cancel;
              entry := c_entry cancel; sl := 0; tp := 0; old_entry := 0;
              order_id := ""; meta := Some (id, "cancel") |}
  | None =>
  match parse_update t with
  | Some (old_e, new_e) =>
      let ptype := default SELL_LIMIT (extract_pending_type t) in
      let side :=
        default (if str_in "SELL" t then SELL else BUY) (extract_side t) in
      match extract_symbol t with
      | Some sym =>
          if nonempty sym then
            Some {| cmd_id := cid; action := UPDATE; symbol := sym;
                    type := ptype; side := side;
                    entry := new_e; sl := 0; tp := 0; old_entry := old_e;
                    order_id := ""; meta := Some (id, "update") |}
          else None
      | None => None
      end
  | None =>
  match extract_symbol t with
  | None => None
  | Some sym =>
  if negb (nonempty sym) then None else
  let ptype := extract_pending_type t in
  match extract_side t with
  | None => None
  | Some side =>
  let values := extract_entry_sl_tp t in
  if is_market_direct t
     || (match ptype with None => true | Some _ => false end
         && str_in "A MERCATO" t)
  then
    Some {| cmd_id := cid; action := OPEN; symbol := sym;
            type := MARKET; side := side;
            entry := 0; sl := v_sl values; tp := v_tp values; old_entry := 0;
            order_id := ""; meta := Some (id, "market_direct") |}
  else
    match ptype with
    | Some pt =>
        if Fleb (v_entry values) 0 then None
        else
          Some {| cmd_id := cid; action := OPEN; symbol := sym;
                  type := pt; side := side;
                  entry := v_entry values; sl := v_sl values;
                  tp := v_tp values; old_entry := 0;
                  order_id := ""; meta := Some (id, "pending") |}
    | None => None
    end
  end
  end
  end
  end.

(** The text that [parse_message] classifies: stripped, NBSP turned into a
    space, uppercased, commas turned into points; [None] when the body is
    absent or blank. *)
Definition normalized (msg : Message) : option string :=
  match message msg with
  | None => None
  | Some body =>
      if negb (nonempty body) then None
      else
        let raw := strip body in
        if negb (nonempty raw) then None
        else
          let text := replace (ascii_of_N 160) " " raw in
          Some (replace "," "." (upper text))
  end.

Definition parse_message (msg : Message) : option Command :=
  match normalized msg with
  | None => None
  | Some t => parse_text (msg_id msg) t
  end.

End Parser.

(** ** State (dedupe) *)

(** [STATE["processed_ids"]]: message id to timestamp, in insertion order.
    The keys [str(msg_id)] are modelled by the ids themselves. *)
Definition Dedup : Type := list (Z * Z).

Fixpoint dict_in (k : Z) (d : Dedup) : bool :=
  match d with
  | [] => false
  | (k', _) :: r => (k' =? k) || dict_in k r
  end.

(** [d[k] = v]: an existing key keeps its place, a new one goes last. *)
Fixpoint dict_set (k v : Z) (d : Dedup) : Dedup :=
  match d with
  | [] => [(k, v)]
  | (k', v') :: r =>
      if k' =? k then (k, v) :: r else (k', v') :: dict_set k v r
  end.

(** [del d[k]] *)
Fixpoint dict_del (k : Z) (d : Dedup) : Dedup :=
  match d with
  | [] => []
  | (k', v') :: r => if k' =? k then r else (k', v') :: dict_del k r
  end.

Fixpoint insert_by_ts (x : Z * Z) (l : Dedup) : Dedup :=
  match l with
  | [] => [x]
  | y :: r => if snd x <=? snd y then x :: l else y :: insert_by_ts x r
  end.

(** [sorted(d.items(), key=lambda kv: kv[1])]: a stable sort. *)
Definition sorted_by_ts (d : Dedup) : Dedup := fold_right insert_by_ts [] d.

Definition del_all (items : Dedup) (d : Dedup) : Dedup :=
  fold_left (fun acc kv => dict_del (fst kv) acc) items d.

Definition evict (d : Dedup) : Dedup :=
  if 20000 <? Z.of_nat (length d)
  then del_all (firstn (Z.to_nat 2000) (sorted_by_ts d)) d
  else d.

(** ** Message-Order Database *)

Record MsgRecord : Type := {
  r_order_id : string;
  r_msg_id : Z;
  r_action : Action;
  r_symbol : string;
  r_type : OrderType;
  r_side : Side;
  r_entry : Float;
  r_sl : Float;
  r_tp : Float;
  r_timestamp : Z
}.

Record Order : Type := {
  o_order_id : string;
  o_first_msg_id : Z;
  o_messages : list Z;
  o_symbol : string;
  o_side : Side;
  o_status : string;
  o_latest_action : Action;
  o_created_at : Z;
  o_updated_at : Z
}.

(** ** The process state *)

Record World : Type := {
  processed_ids : Dedup;                     (* STATE *)
  db_messages : gmap Z MsgRecord;            (* DB["messages"] *)
  db_orders : gmap string Order;             (* DB["orders"] *)
  csv_file : option (list (list string));    (* None: no file yet *)
  jsonl_file : list Command;
  clock : nat -> Z;                          (* successive int(time.time()) *)
  ticks : nat
}.

(** Computations that read and write the process state. *)
Definition M (A : Type) : Type := World -> A * World.

Definition ret {A : Type} (a : A) : M A := fun w => (a, w).

Definition bind {A B : Type} (c : M A) (f : A -> M B) : M B :=
  fun w => let (a, w') := c w in f a w'.

Notation "'do' x <- c ';' k" := (bind c (fun x => k))
  (at level 10, x name, c at level 100, k at level 200).
Notation "c '>>' k" := (bind c (fun _ => k))
  (at level 199, right associativity).

Definition run {A : Type} (c : M A) (w : World) : World := snd (c w).

(** [int(time.time())] *)
Definition time_time : M Z := fun w =>
  (clock w (ticks w),
   {| processed_ids := processed_ids w; db_messages := db_messages w;
      db_orders := db_orders w; csv_file := csv_file w;
      jsonl_file := jsonl_file w; clock := clock w; ticks := S (ticks w) |}).

Definition set_processed_ids (d : Dedup) : M unit := fun w =>
  (tt, {| processed_ids := d; db_messages := db_messages w;
          db_orders := db_orders w; csv_file := csv_file w;
          jsonl_file := jsonl_file w; clock := clock w; ticks := ticks w |}).

Definition set_db (ms : gmap Z MsgRecord) (os : gmap string Order) : M unit :=
  fun w =>
  (tt, {| processed_ids := processed_ids w; db_messages := ms;
          db_orders := os; csv_file := csv_file w;
          jsonl_file := jsonl_file w; clock := clock w; ticks := ticks w |}).

Definition set_csv (f : option (list (list string))) : M unit := fun w =>
  (tt, {| processed_ids := processed_ids w; db_messages := db_messages w;
          db_orders := db_orders w; csv_file := f;
          jsonl_file := jsonl_file w; clock := clock w; ticks := ticks w |}).

Definition set_jsonl (l : list Command) : M unit := fun w =>
  (tt, {| processed_ids := processed_ids w; db_messages := db_messages w;
          db_orders := db_orders w; csv_file := csv_file w;
          jsonl_file := l; clock := clock w; ticks := ticks w |}).

Definition get {A : Type} (f : World -> A) : M A := fun w => (f w, w).

Definition already_processed (id : Z) : M bool :=
  do d <- get processed_ids; ret (dict_in id d).

Definition mark_processed (id ts : Z) : M unit :=
  do d <- get processed_ids;
  set_processed_ids (evict (dict_set id ts d)).

Definition get_order_id_for_msg (id : Z) : M (option string) :=
  do ms <- get db_messages;
  ret (r_order_id <$> ms !! id).

Definition link_message_to_order (id : Z) (oid : string) (cmd : Command)
  : M unit :=
  do ms <- get db_messages;
  do os <- get db_orders;
  do now <- time_time;
  let ms' :=
    <[ id := {| r_order_id := oid; r_msg_id := id; r_action := action cmd;
                r_symbol := symbol cmd; r_type := type cmd;
                r_side := side cmd; r_entry := entry cmd; r_sl := sl cmd;
                r_tp := tp cmd; r_timestamp := now |} ]> ms in
  match os !! oid with
  | None =>
      do created <- time_time;
      do updated <- time_time;
      set_db ms'
        (<[ oid := {| o_order_id := oid; o_first_msg_id := id;
                      o_messages := [id]; o_symbol := symbol cmd;
                      o_side := side cmd; o_status := "active";
                      o_latest_action := action cmd;
                      o_created_at := created;
                      o_updated_at := updated |} ]> os)
  | Some order =>
      do updated <- time_time;
      set_db ms'
        (<[ oid := {| o_order_id := o_order_id order;
                      o_first_msg_id := o_first_msg_id order;
                      o_messages :=
                        if existsb (Z.eqb id) (o_messages order)
                        then o_messages order
                        else o_messages order ++ [id];
                      o_symbol := o_symbol order; o_side := o_side order;
                      o_status := o_status order;
                      o_latest_action := action cmd;
                      o_created_at := o_created_at order;
                      o_updated_at := updated |} ]> os)
  end.

(** [get_order_summary(order_id)] *)
Definition get_order_summary (oid : string) : M (option Order) :=
  do os <- get db_orders; ret (os !! oid).

(** ** Output writers *)

Definition CSV_HEADER : list string :=
  ["cmd_id"; "order_id"; "action"; "symbol"; "type"; "side"; "entry"; "sl";
   "tp"; "old_entry"].

Definition action_str (a : Action) : string :=
  match a with OPEN => "OPEN" | UPDATE => "UPDATE" | CANCEL => "CANCEL" end.

Definition type_str (t : OrderType) : string :=
  match t with
  | MARKET => "MARKET" | BUY_LIMIT => "BUY_LIMIT" | SELL_LIMIT => "SELL_LIMIT"
  | BUY_STOP => "BUY_STOP" | SELL_STOP => "SELL_STOP"
  end.

Definition side_str (s : Side) : string :=
  match s with BUY => "BUY" | SELL => "SELL" end.

Definition digit_char (d : Z) : ascii := ascii_of_N (48 + Z.to_N d).

Definition digits5 (k : Z) : string :=
  String (digit_char (k / 10000 mod 10))
    (String (digit_char (k / 1000 mod 10))
       (String (digit_char (k / 100 mod 10))
          (String (digit_char (k / 10 mod 10))
             (String (digit_char (k mod 10)) EmptyString)))).

(** [f"{x:.5f}"]: for a finite value the sign, the integer part, a point
    and five digits, the value being rounded to the nearest multiple of
    10^-5, ties to even; [inf] or [-inf] for an infinity. *)
Definition fmt5 (x : Float) : string :=
  match x with
  | Finite q =>
      let n := round_half_even (Qabs q * 100000) in
      (if Qnum q <? 0 then "-" else "") +:+ str (n / 100000) +:+ "."
      +:+ digits5 (n mod 100000)
  | Infinity negative => if negative then "-inf" else "inf"
  end.

(** [f"{x:.5f}" if x else "0"] *)
Definition num_field (x : Float) : string :=
  if truthy x then fmt5 x else "0".

Definition csv_row (cmd : Command) : list string :=
  [cmd_id cmd; order_id cmd; action_str (action cmd); symbol cmd;
   type_str (type cmd); side_str (side cmd);
   num_field (entry cmd); num_field (sl cmd); num_field (tp cmd);
   num_field (old_entry cmd)].

Definition append_csv (cmd : Command) : M unit :=
  do f <- get csv_file;
  match f with
  | None => set_csv (Some [CSV_HEADER; csv_row cmd])
  | Some rows => set_csv (Some (rows ++ [csv_row cmd]))
  end.

Definition append_jsonl (cmd : Command) : M unit :=
  do l <- get jsonl_file;
  set_jsonl (l ++ [cmd]).

(** ** Telethon runner: the live handler *)

(** [f"order_msg{id}"] *)
Definition order_msg (id : Z) : string := "order_msg" +:+ str id.

Definition with_order_id (cmd : Command) (oid : string) : Command :=
  {| cmd_id := cmd_id cmd; action := action cmd; symbol := symbol cmd;
     type := type cmd; side := side cmd; entry := entry cmd; sl := sl cmd;
     tp := tp cmd; old_entry := old_entry cmd; order_id := oid;
     meta := meta cmd |}.

(** Truth value of [msg.reply_to_msg_id]. *)
Definition linked_id (msg : Message) : option Z :=
  match reply_to_msg_id msg with
  | Some n => if n =? 0 then None else Some n
  | None => None
  end.

Definition resolve_order_id (msg : Message) : M string :=
  match linked_id msg with
  | Some linked =>
      do found <- get_order_id_for_msg linked;
      match found with
      | Some oid => if nonempty oid then ret oid
                    else ret (order_msg (msg_id msg))
      | None => ret (order_msg (msg_id msg))
      end
  | None => ret (order_msg (msg_id msg))
  end.

Section Handler.

Variable SYMBOL_POSTFIX : string.

Definition handler (msg : Message) : M unit :=
  do seen <- already_processed (msg_id msg);
  if seen : bool then ret tt
  else
    match parse_message SYMBOL_POSTFIX msg with
    | Some cmd0 =>
        do oid <- resolve_order_id msg;
        let cmd := with_order_id cmd0 oid in
        link_message_to_order (msg_id msg) oid cmd >>
        append_csv cmd >>
        append_jsonl cmd >>
        do now <- time_time;
        mark_processed (msg_id msg) now
    | None =>
        do now <- time_time;
        mark_processed (msg_id msg) now
    end.

End Handler.

(** ** Telethon runner: test mode *)

(** What [client.get_messages(entity, ids=...)] can do: return a message,
    return nothing, or raise. *)
Inductive Fetched : Type :=
| Found (m : Message)
| NotFound
| Raised.

(** The status line printed for one requested id. *)
Inductive Outcome : Type :=
| Parsed (c : Command)
| Ignored
| Missing
| Failed.

(** The process state together with the per-message output files
    [copytrade_commands_msg<id>.csv] and [.jsonl], keyed by requested id;
    an absent key is a file that does not exist. *)
Record BatchState : Type := {
  b_world : World;
  b_csv : gmap Z (list (list string));
  b_jsonl : gmap Z (list Command)
}.

(** [append_csv(cmd, csv_path)] for the file of request [k]. *)
Definition append_csv_at (k : Z) (cmd : Command)
    (files : gmap Z (list (list string))) : gmap Z (list (list string)) :=
  match files !! k with
  | None => <[k := [CSV_HEADER; csv_row cmd]]> files
  | Some rows => <[k := rows ++ [csv_row cmd]]> files
  end.

(** [append_jsonl(cmd, jsonl_path)] for the file of request [k]. *)
Definition append_jsonl_at (k : Z) (cmd : Command)
    (files : gmap Z (list Command)) : gmap Z (list Command) :=
  <[k := default [] (files !! k) ++ [cmd]]> files.

Section TestMode.

Variable SYMBOL_POSTFIX : string.

(** The message source. *)
Variable fetch : Z -> Fetched.

(** One iteration of the loop over the requested ids. *)
Definition batch_step (k : Z) (st : BatchState) : BatchState * Outcome :=
  match fetch k with
  | Raised => (st, Failed)
  | NotFound => (st, Missing)
  | Found msg =>
      match parse_message SYMBOL_POSTFIX msg with
      | None => (st, Ignored)
      | Some cmd0 =>
          let (oid, w1) := resolve_order_id msg (b_world st) in
          let cmd := with_order_id cmd0 oid in
          let w2 := run (link_message_to_order (msg_id msg) oid cmd) w1 in
          ({| b_world := w2;
              b_csv := append_csv_at k cmd (b_csv st);
              b_jsonl := append_jsonl_at k cmd (b_jsonl st) |},
           Parsed cmd)
      end
  end.

(** The loop: the final state and one outcome per requested id. *)
Fixpoint batch (ks : list Z) (st : BatchState) : BatchState * list Outcome :=
  match ks with
  | [] => (st, [])
  | k :: ks' =>
      let (st1, o) := batch_step k st in
      let (st2, os) := batch ks' st1 in
      (st2, o :: os)
  end.

End TestMode.

(** * Vocabulary of the properties *)

(** The order of the floats. *)
Definition Fle (x y : Float) : Prop :=
  match x, y with
  | Finite a, Finite b => (a <= b)%Q
  | Finite _, Infinity negative => negative = false
  | Infinity negative, Finite _ => negative = true
  | Infinity negative, Infinity negative' =>
      negative = true \/ negative' = false
  end.

Definition Flt (x y : Float) : Prop :=
  match x, y with
  | Finite a, Finite b => (a < b)%Q
  | Finite _, Infinity negative => negative = false
  | Infinity negative, Finite _ => negative = true
  | Infinity negative, Infinity negative' =>
      negative = true /\ negative' = false
  end.

Notation "x <= y" := (Fle x y) : float_scope.
Notation "x < y" := (Flt x y) : float_scope.

Fixpoint all_chars (p : ascii -> bool) (s : string) : bool :=
  match s with
  | EmptyString => true
  | String c r => p c && all_chars p r
  end.

(** The last character of [s], or [prev] when [s] is empty. *)
Fixpoint last_char (prev : option ascii) (s : string) : option ascii :=
  match s with
  | EmptyString => prev
  | String c r => last_char (Some c) r
  end.

Definition letters (n : nat) (s : string) : Prop :=
  String.length s = n /\ all_chars is_AZ s = true.

(** [t] holds, right after [pre], the codes [a] and [b] separated by a
    slash with optional whitespace around it, as whole words. *)
Definition pair_at (t pre a b : string) : Prop :=
  exists ws1 ws2 post,
    t = pre +:+ a +:+ ws1 +:+ "/" +:+ ws2 +:+ b +:+ post /\
    letters 3 a /\ letters 3 b /\
    all_chars is_space ws1 = true /\ all_chars is_space ws2 = true /\
    word_at (last_char None pre) = false /\
    word_at (head_char post) = false.

(** [t] holds, right after [pre], the six-letter word [w]. *)
Definition token_at (t pre w : string) : Prop :=
  exists post,
    t = pre +:+ w +:+ post /\ letters 6 w /\
    word_at (last_char None pre) = false /\
    word_at (head_char post) = false.

(** What [parse_message], [parse_update] and [parse_cancel] do to a text
    before matching. *)
Definition norm (s : string) : string := replace "," "." (upper s).

Definition has_cancel_keyword (t : string) : Prop :=
  is_Some (re_search re_cancel t).

(** The market test of the open rule. *)
Definition market_open (t : string) : bool :=
  is_market_direct t
  || (match extract_pending_type t with None => true | Some _ => false end
      && str_in "A MERCATO" t).

(** The open rule is reached with a symbol, a side and a pending type, and
    the market test fails. *)
Definition pending_open_candidate (sfx t : string) : Prop :=
  parse_cancel sfx t = None /\ parse_update t = None /\
  (exists sym, extract_symbol sfx t = Some sym) /\
  (exists sd, extract_side t = Some sd) /\
  (exists pt, extract_pending_type t = Some pt) /\
  market_open t = false.

Definition five_decimals (s : string) : Prop :=
  exists sign ip fp,
    s = sign +:+ ip +:+ "." +:+ fp /\
    (sign = "" \/ sign = "-") /\
    nonempty ip = true /\ all_chars is_digit ip = true /\
    String.length fp = 5%nat /\ all_chars is_digit fp = true.

(** [n] is the integer nearest to [x], the even one when [x] lies halfway
    between two integers. *)
Definition nearest (x : Q) (n : Z) : Prop :=
  (Qabs (inject_Z n - x) <= 1 # 2)%Q /\
  ((Qabs (inject_Z n - x) == 1 # 2)%Q -> Z.even n = true).

(** A numeric column.  Zero is the literal "0" and an infinity is "inf" or
    "-inf".  Any other value is a sign, an integer part without superfluous
    zeros, a point and five digits, and the digits read as one integer are
    the magnitude times 10^5, rounded to the nearest integer. *)
Definition rendered (x : Float) (field : string) : Prop :=
  match x with
  | Infinity negative => field = if negative then "-inf" else "inf"
  | Finite q =>
      ((q == 0)%Q /\ field = "0") \/
      (~ (q == 0)%Q /\
       exists sign ip fp,
         field = sign +:+ ip +:+ "." +:+ fp /\
         ((sign = "" /\ (0 <= q)%Q) \/ (sign = "-" /\ (q < 0)%Q)) /\
         nonempty ip = true /\ all_chars is_digit ip = true /\
         ip = str (digits_val 0 ip) /\
         String.length fp = 5%nat /\ all_chars is_digit fp = true /\
         nearest (Qabs q * 100000) (digits_val 0 (ip +:+ fp)))
  end.

(** The character [c], [n] times. *)
Fixpoint repeated (c : ascii) (n : nat) : string :=
  match n with
  | O => EmptyString
  | S k => String c (repeated c k)
  end.

(** A pending open whose entry price has 400 digits. *)
Definition sample_overflow : Message :=
  {| msg_id := 8;
     message := Some ("BUY LIMIT EUR/USD PREZZO " +:+ repeated "9" 400);
     reply_to_msg_id := None |}.

Definition ts_le : relation (Z * Z) := fun a b => a.2 <= b.2.

(** The order's message sequence after linking [id]. *)
Definition linked_messages (id : Z) (prior : option Order) : list Z :=
  match prior with
  | None => [id]
  | Some o =>
      if existsb (Z.eqb id) (o_messages o) then o_messages o
      else o_messages o ++ [id]
  end.

(** Every order aggregate was minted from a recorded message, and every
    recorded message points at an existing aggregate. *)
Definition ledger_wf (w : World) : Prop :=
  (forall oid o, db_orders w !! oid = Some o ->
     exists m, oid = order_msg m /\ is_Some (db_messages w !! m)) /\
  (forall m r, db_messages w !! m = Some r ->
     nonempty (r_order_id r) = true ->
     is_Some (db_orders w !! r_order_id r)).

Definition world_of (d : Dedup) (clk : nat -> Z) : World :=
  {| processed_ids := d; db_messages := ∅; db_orders := ∅;
     csv_file := None; jsonl_file := []; clock := clk; ticks := 0 |}.

(** The table with keys [k], [k+1], ... ([n] of them), key [i] stamped
    [ts i]. *)
Fixpoint stamped (n : nat) (k : Z) (ts : Z -> Z) : Dedup :=
  match n with
  | O => []
  | S n' => (k, ts k) :: stamped n' (k + 1) ts
  end.

(** A table of 20001 entries, entry [i] stamped [i]. *)
Definition store_20001 : Dedup := stamped (Z.to_nat 20001) 0 (fun i => i).


Definition sample (id : Z) (body : string) : Message :=
  {| msg_id := id; message := Some body; reply_to_msg_id := None |}.

Definition sample_open : Message :=
  {| msg_id := 5;
     message := Some "BUY LIMIT EUR/USD PREZZO 1.10000 STOP LOSS 1.09 TAKE PROFIT 1.12";
     reply_to_msg_id := None |}.

Definition sample_update : Message :=
  {| msg_id := 6;
     message := Some "(BUY LIMIT EUR/USD) - MODIFICARE IL PREZZO DI INGRESSO DA 1.10000 A 1.10500";
     reply_to_msg_id := Some 5 |}.

Definition sample_cancel : Message :=
  {| msg_id := 7;
     message := Some "ANNULLARE BUY LIMIT EUR/USD (1.10500)";
     reply_to_msg_id := Some 6 |}.

Definition no_space (s : string) : bool :=
  all_chars (fun c => negb (is_space c)) s.




(** The [kind] annotation that goes with an action and an order type. *)
Definition kind_of (a : Action) (t : OrderType) : string :=
  match a, t with
  | CANCEL, _ => "cancel"
  | UPDATE, _ => "update"
  | OPEN, MARKET => "market_direct"
  | OPEN, _ => "pending"
  end.

(** The handler run over a list of messages, in order. *)
Definition run_all (sfx : string) (msgs : list Message) (w : World) : World :=
  fold_left (fun w m => run (handler sfx m) w) msgs w.


(** The table has unique keys and respects the bound. *)
Definition dedup_ok (w : World) : Prop :=
  NoDup (processed_ids w).*1 /\ Z.of_nat (length (processed_ids w)) <= 20000.


(** Each message after the first replies to the one before it. *)
Fixpoint replies_chain (prev : Message) (msgs : list Message) : Prop :=
  match msgs with
  | [] => True
  | m :: rest =>
      reply_to_msg_id m = Some (msg_id prev) /\ replies_chain m rest
  end.


(** * Properties *)

(** ** Characters and strings *)

Lemma append_nil_r (s : string) : s +:+ "" = s.
Proof. induction s; simpl; congruence. Qed.

Lemma append_assoc (a b c : string) : (a +:+ b) +:+ c = a +:+ b +:+ c.
Proof. induction a; simpl; congruence. Qed.

Lemma length_append (a b : string) :
  String.length (a +:+ b) = (String.length a + String.length b)%nat.
Proof. induction a; simpl; congruence. Qed.

Lemma all_chars_append p a b :
  all_chars p (a +:+ b) = all_chars p a && all_chars p b.
Proof. induction a; simpl; [reflexivity|]. rewrite IHa. apply andb_assoc. Qed.

Lemma lstrip_all_space s : all_chars is_space s = true -> lstrip s = "".
Proof.
  induction s as [|c r IH]; simpl; [reflexivity|].
  intros [Hc Hr]%andb_true_iff. rewrite Hc. auto.
Qed.

Lemma strip_all_space s : all_chars is_space s = true -> strip s = "".
Proof. intros H. unfold strip. now rewrite lstrip_all_space. Qed.

(** C10. A message whose body is absent, empty or only whitespace yields no
    Command: [parse_message] returns before any classification. *)
Theorem C10_blank_body_no_command (sfx : string) (msg : Message) :
  message msg = None \/
  (exists body, message msg = Some body /\ all_chars is_space body = true) ->
  normalized msg = None /\ parse_message sfx msg = None.
Proof.
  intros H.
  assert (Hn : normalized msg = None).
  { unfold normalized. destruct H as [-> | (body & -> & Hb)]; [reflexivity|].
    destruct (nonempty body); simpl; [|reflexivity].
    now rewrite strip_all_space. }
  split; [exact Hn|]. unfold parse_message. now rewrite Hn.
Qed.

Lemma C10_blank_body_witness :
  parse_message "-STD"
    {| msg_id := 7; message := Some (String (ascii_of_N 160) "  ");
       reply_to_msg_id := None |} = None.
Proof.
  apply (C10_blank_body_no_command "-STD"). right.
  eexists. split; [reflexivity|]. vm_compute. reflexivity.
Defined.

(** ** Rounding *)

Lemma Fleb_iff x y : Fleb x y = true <-> (x <= y)%F.
Proof.
  destruct x as [a|[|]], y as [b|[|]]; simpl;
    try apply Qle_bool_iff; intuition congruence.
Qed.

Lemma Fleb_false x : Fleb x 0 = false -> (0 < x)%F.
Proof.
  destruct x as [a|[|]]; simpl; [|discriminate|auto].
  intros H. apply Qnot_le_lt. intros Hle. apply Qle_bool_iff in Hle.
  congruence.
Qed.

Lemma round_half_even_nonneg q : 0 <= Qnum q -> 0 <= round_half_even q.
Proof.
  intros H. unfold round_half_even.
  assert (0 <= Qnum q / Z.pos (Qden q)) by (apply Z.div_pos; lia).
  repeat match goal with |- context [if ?b then _ else _] => destruct b end;
    lia.
Qed.


(** Rounding to the nearest integer, ties to even. *)
Lemma round_half_even_nearest x : nearest x (round_half_even x).
Proof.
  destruct x as [a d]. unfold nearest, round_half_even. cbn [Qnum Qden].
  pose proof (Z.div_mod a (Z.pos d) ltac:(lia)) as Hdm.
  pose proof (Z.mod_pos_bound a (Z.pos d) ltac:(lia)) as Hr.
  set (fl := a / Z.pos d) in *. set (r := a mod Z.pos d) in *.
  assert (Hdiff : forall n, (inject_Z n - (a # d) == (n * Z.pos d - a) # d)%Q).
  { intros n. unfold Qeq, Qminus, Qplus, Qopp, inject_Z. simpl. lia. }
  assert (Hle : forall n, - Z.pos d <= 2 * (n * Z.pos d - a) <= Z.pos d ->
                  (Qabs (inject_Z n - (a # d)) <= 1 # 2)%Q).
  { intros n Hn. apply Qabs_Qle_condition. rewrite Hdiff.
    unfold Qle, Qopp. simpl. lia. }
  assert (Heq : forall n, (Qabs (inject_Z n - (a # d)) == 1 # 2)%Q ->
                  2 * (n * Z.pos d - a) = Z.pos d \/
                  2 * (n * Z.pos d - a) = - Z.pos d).
  { intros n. rewrite Hdiff. unfold Qabs, Qeq. simpl. lia. }
  destruct (2 * r <? Z.pos d) eqn:E1; [apply Z.ltb_lt in E1|apply Z.ltb_ge in E1].
  { split; [apply Hle; nia|]. intros H%Heq. nia. }
  destruct (Z.pos d <? 2 * r) eqn:E2; [apply Z.ltb_lt in E2|apply Z.ltb_ge in E2].
  { split; [apply Hle; nia|]. intros H%Heq. nia. }
  destruct (Z.even fl) eqn:E3.
  - split; [apply Hle; nia|auto].
  - split; [apply Hle; nia|]. intros _. rewrite Z.even_add, E3. reflexivity.
Qed.

(** ** The classifier *)

Ltac case_parse H :=
  repeat match type of H with
  | context [match ?x with _ => _ end] =>
      let E := fresh "E" in destruct x eqn:E; simpl in H; try discriminate H
  end.

(** C5. A Command with action OPEN and a pending type has a positive entry,
    and a pending open whose labelled entry price is absent or not positive
    yields no Command. *)
Theorem C5_pending_open_positive_entry (sfx : string) (msg : Message) :
  (forall c, parse_message sfx msg = Some c ->
             action c = OPEN -> type c <> MARKET -> (0 < entry c)%F) /\
  (forall t, normalized msg = Some t -> pending_open_candidate sfx t ->
             (re_search re_entry (upper t) = None ->
              v_entry (extract_entry_sl_tp t) = 0%F) /\
             ((v_entry (extract_entry_sl_tp t) <= 0)%F ->
              parse_message sfx msg = None)).
Proof.
  split.
  - intros c H Ha Ht. unfold parse_message, parse_text in H.
    case_parse H; injection H as <-; simpl in *; try discriminate; try easy.
    now apply Fleb_false.
  - intros t Hn (Hc & Hu & [sym Hs] & [sd Hd] & [pt Hp] & Hm). split.
    + intros He. unfold extract_entry_sl_tp, first_price. simpl.
      rewrite He. reflexivity.
    + intros Hle. apply Fleb_iff in Hle.
      unfold parse_message, parse_text. rewrite Hn, Hc, Hu, Hs, Hd.
      unfold market_open in Hm. rewrite Hp in *. rewrite Hm, Hle.
      now destruct (nonempty sym).
Qed.

Lemma C5_pending_open_witness :
  parse_message "-STD"
    {| msg_id := 1; message := Some "BUY LIMIT EUR/USD";
       reply_to_msg_id := None |} = None.
Proof.
  apply (proj2 (C5_pending_open_positive_entry "-STD" _) "BUY LIMIT EUR/USD").
  - vm_compute. reflexivity.
  - unfold pending_open_candidate.
    repeat split; try (eexists; vm_compute; reflexivity).
  - vm_compute. discriminate.
Defined.

(** ** The tabular output *)

Lemma digit_char_is_digit d : 0 <= d < 10 -> is_digit (digit_char d) = true.
Proof.
  intros H.
  assert (d = 0 \/ d = 1 \/ d = 2 \/ d = 3 \/ d = 4 \/ d = 5 \/ d = 6 \/
          d = 7 \/ d = 8 \/ d = 9) as Hd by lia.
  repeat (destruct Hd as [-> | Hd]; [reflexivity|]). now subst.
Qed.

Lemma digits5_digits k :
  String.length (digits5 k) = 5%nat /\ all_chars is_digit (digits5 k) = true.
Proof.
  split; [reflexivity|]. unfold digits5. simpl.
  rewrite !digit_char_is_digit; [reflexivity| | | | |];
    apply Z.mod_pos_bound; lia.
Qed.

Lemma string_of_uint_digits d :
  all_chars is_digit (NilEmpty.string_of_uint d) = true.
Proof. induction d; simpl; auto. Qed.

Lemma str_nonneg_digits n :
  0 <= n -> nonempty (str n) = true /\ all_chars is_digit (str n) = true.
Proof.
  intros Hn. unfold str. destruct n as [|p|p]; [split; reflexivity| |lia].
  simpl. pose proof (Unsigned.to_uint_nonnil p) as Hp.
  pose proof (string_of_uint_digits (Pos.to_uint p)) as Hd.
  destruct (Pos.to_uint p); try congruence; split; try reflexivity; exact Hd.
Qed.

(** Reading a numeral back. *)
Lemma digit_val_char d : 0 <= d < 10 -> digit_val (digit_char d) = d.
Proof.
  intros H.
  assert (d = 0 \/ d = 1 \/ d = 2 \/ d = 3 \/ d = 4 \/ d = 5 \/ d = 6 \/
          d = 7 \/ d = 8 \/ d = 9) as Hd by lia.
  repeat (destruct Hd as [-> | Hd]; [reflexivity|]). now subst.
Qed.

Lemma digits_val_append acc a b :
  digits_val acc (a +:+ b) = digits_val (digits_val acc a) b.
Proof. revert acc. induction a; intros acc; simpl; auto. Qed.

Lemma digits_val_uint_acc d acc :
  digits_val (Z.pos acc) (NilEmpty.string_of_uint d)
  = Z.pos (Pos.of_uint_acc d acc).
Proof.
  revert acc. induction d; intros acc; cbn [NilEmpty.string_of_uint digits_val
    Pos.of_uint_acc]; [reflexivity|..]; rewrite <- IHd; f_equal;
    unfold digit_val; simpl; lia.
Qed.

Lemma digits_val_uint d :
  digits_val 0 (NilEmpty.string_of_uint d) = Z.of_N (Pos.of_uint d).
Proof.
  induction d; cbn [NilEmpty.string_of_uint digits_val Pos.of_uint];
    [reflexivity|exact IHd|..];
    cbn [Z.of_N]; rewrite <- digits_val_uint_acc; reflexivity.
Qed.

(** [int(str(n)) == n] *)
Lemma digits_val_str n : 0 <= n -> digits_val 0 (str n) = n.
Proof.
  intros Hn. unfold str. destruct n as [|p|p]; [reflexivity| |lia].
  simpl. pose proof (Unsigned.to_uint_nonnil p) as Hp.
  pose proof (digits_val_uint (Pos.to_uint p)) as Hd.
  rewrite Unsigned.of_to in Hd. simpl in Hd.
  destruct (Pos.to_uint p); try congruence; exact Hd.
Qed.

Lemma digits_val_digits5 acc k :
  0 <= k < 100000 -> digits_val acc (digits5 k) = acc * 100000 + k.
Proof.
  intros Hk. unfold digits5. cbn [digits_val].
  rewrite !digit_val_char by (apply Z.mod_pos_bound; lia).
  Z.div_mod_to_equations. lia.
Qed.

Lemma fmt5_rendered q :
  ~ (q == 0)%Q -> rendered (Finite q) (fmt5 (Finite q)).
Proof.
  intros Hq. right. split; [exact Hq|]. unfold fmt5.
  pose proof (round_half_even_nearest (Qabs q * 100000)) as Hnear.
  set (n := round_half_even (Qabs q * 100000)) in *.
  assert (Hn : 0 <= n).
  { apply round_half_even_nonneg. destruct q as [a b]. simpl. lia. }
  assert (Hip : 0 <= n / 100000) by (apply Z.div_pos; lia).
  assert (Hfp : 0 <= n mod 100000 < 100000) by (apply Z.mod_pos_bound; lia).
  destruct (str_nonneg_digits _ Hip) as [Hne Hdg].
  destruct (digits5_digits (n mod 100000)) as [Hl Hd].
  exists (if Qnum q <? 0 then "-" else ""), (str (n / 100000)),
         (digits5 (n mod 100000)).
  split; [reflexivity|]. split.
  { destruct (Qnum q <? 0) eqn:E; [right|left]; (split; [reflexivity|]);
      destruct q as [a b]; unfold Qlt, Qle; simpl in *; lia. }
  repeat match goal with |- _ /\ _ => split end; auto.
  - now rewrite digits_val_str.
  - rewrite digits_val_append, digits_val_str, digits_val_digits5 by auto.
    replace (n / 100000 * 100000 + n mod 100000) with n; [exact Hnear|].
    pose proof (Z.div_mod n 100000). lia.
Qed.

Lemma num_field_rendered x : rendered x (num_field x).
Proof.
  destruct x as [q|negative]; [|reflexivity].
  unfold num_field, truthy. destruct (Qeq_bool q 0) eqn:E; simpl.
  - left. split; [now apply Qeq_bool_iff|reflexivity].
  - apply fmt5_rendered. intros H. apply Qeq_bool_iff in H. congruence.
Qed.

(** Doubles of some literals: an inexact one, an exact one, overflow to
    infinity and underflow to zero. *)
Lemma float_examples :
  float "1.33100" = Finite (2997145552015065 # 2251799813685248) /\
  float "0.015625" = Finite (1 # 64) /\
  float (repeated "9" 400) = Infinity false /\
  float ("0." +:+ repeated "0" 400 +:+ "1") = 0%F.
Proof. vm_compute. repeat split. Qed.

(** The value that is rounded is the double: 1.000005 is stored slightly
    above, 0.015625 is stored exactly and is a tie. *)
Lemma num_field_examples :
  num_field (float "1.33100") = "1.33100" /\
  num_field (float "1.000005") = "1.00001" /\
  num_field (float "0.015625") = "0.01562" /\
  num_field (float "0.000001") = "0.00000" /\
  num_field (float "0.000") = "0" /\
  num_field (float (repeated "9" 400)) = "inf".
Proof. vm_compute. repeat split. Qed.

Lemma inf_not_five_decimals : ~ five_decimals "inf".
Proof.
  intros (sign & ip & fp & E & [-> | ->] & Hne & Hd & _); [|discriminate E].
  destruct ip as [|c ip]; [discriminate Hne|].
  simpl in E. injection E as <- _. discriminate Hd.
Qed.

(** C9 (amended).  The row written for a Command has the ten columns command
    id, order id, action, symbol, order type, side, entry, stop-loss,
    take-profit and old entry, in that order.  A numeric column shows the
    literal "0" when the value is zero; when it is finite and not zero it
    shows the value rounded to five decimals (to the nearest multiple of
    10^-5, ties to even), as sign, integer part, point and five digits; an
    infinite value is written as "inf" or "-inf". *)
Theorem C9_csv_row_columns (cmd : Command) (w : World) :
  CSV_HEADER = ["cmd_id"; "order_id"; "action"; "symbol"; "type"; "side";
                "entry"; "sl"; "tp"; "old_entry"] /\
  csv_file (run (append_csv cmd) w) =
    Some (match csv_file w with None => [CSV_HEADER] | Some rows => rows end
          ++ [csv_row cmd]) /\
  exists e s t o,
    csv_row cmd =
      [cmd_id cmd; order_id cmd; action_str (action cmd); symbol cmd;
       type_str (type cmd); side_str (side cmd); e; s; t; o] /\
    rendered (entry cmd) e /\ rendered (sl cmd) s /\
    rendered (tp cmd) t /\ rendered (old_entry cmd) o.
Proof.
  split; [reflexivity|]. split.
  - unfold run, append_csv, bind, get. simpl.
    destruct (csv_file w); reflexivity.
  - exists (num_field (entry cmd)), (num_field (sl cmd)),
           (num_field (tp cmd)), (num_field (old_entry cmd)).
    repeat split; try apply num_field_rendered.
Qed.

(** C9, as stated, fails.  A pending open whose entry price has 400 digits
    is emitted, its entry is not zero, and the entry column of the row the
    handler writes is "inf", which is neither "0" nor a number with five
    decimals. *)
Lemma C9_counterexample :
  exists c row,
    parse_message "-STD" sample_overflow = Some c /\
    truthy (entry c) = true /\
    csv_file (run (handler "-STD" sample_overflow) (world_of [] (fun _ => 0)))
      = Some [CSV_HEADER; row] /\
    nth_error row 6 = Some "inf" /\
    "inf" <> "0" /\ ~ five_decimals "inf".
Proof.
  eexists. eexists. split; [vm_compute; reflexivity|].
  split; [reflexivity|]. split; [vm_compute; reflexivity|].
  split; [reflexivity|]. split; [discriminate|apply inf_not_five_decimals].
Qed.

(** ** The dedup store *)

Section Dedup.

Implicit Types (d items : Dedup) (k v ts : Z) (e : Z * Z).

Lemma dict_in_keys k d : dict_in k d = true <-> k ∈ d.*1.
Proof.
  induction d as [|[k' v'] d IH]; simpl.
  - rewrite elem_of_nil. split; [discriminate|tauto].
  - rewrite orb_true_iff, IH, elem_of_cons, Z.eqb_eq. intuition congruence.
Qed.

Lemma dict_in_false k d : dict_in k d = false <-> k ∉ d.*1.
Proof. rewrite <- dict_in_keys. destruct (dict_in k d); intuition congruence. Qed.

Lemma dict_set_fresh k v d : k ∉ d.*1 -> dict_set k v d = d ++ [(k, v)].
Proof.
  induction d as [|[k' v'] d IH]; simpl; [reflexivity|].
  intros [Hne Hd]%not_elem_of_cons.
  destruct (k' =? k) eqn:E; [apply Z.eqb_eq in E; congruence|].
  now rewrite IH.
Qed.

Lemma dict_set_keys k v d :
  (dict_set k v d).*1 = if dict_in k d then d.*1 else d.*1 ++ [k].
Proof.
  induction d as [|[k' v'] d IH]; csimpl; [reflexivity|].
  destruct (k' =? k) eqn:E; csimpl.
  - apply Z.eqb_eq in E. now subst.
  - rewrite IH. now destruct (dict_in k d).
Qed.

Lemma dict_set_NoDup k v d : NoDup d.*1 -> NoDup (dict_set k v d).*1.
Proof.
  intros H. rewrite dict_set_keys. destruct (dict_in k d) eqn:E; [exact H|].
  apply dict_in_false in E. apply NoDup_app. split; [exact H|]. split.
  - intros x Hx ->%list_elem_of_singleton. contradiction.
  - apply NoDup_singleton.
Qed.

Lemma dict_set_elem k v d : (k, v) ∈ dict_set k v d.
Proof.
  induction d as [|[k' v'] d IH]; simpl; [apply elem_of_cons; auto|].
  destruct (k' =? k); apply elem_of_cons; auto.
Qed.

Lemma dict_in_set k v d : dict_in k (dict_set k v d) = true.
Proof.
  apply dict_in_keys. apply list_elem_of_fmap. exists (k, v).
  split; [reflexivity|apply dict_set_elem].
Qed.

Lemma keys_unique d e e' :
  NoDup d.*1 -> e ∈ d -> e' ∈ d -> e.1 = e'.1 -> e = e'.
Proof.
  induction d as [|x d IH]; csimpl; intros Hnd He He' Hk.
  - now apply elem_of_nil in He.
  - apply NoDup_cons in Hnd as [Hx Hnd].
    apply elem_of_cons in He as [-> | He];
      apply elem_of_cons in He' as [-> | He']; auto.
    + exfalso. apply Hx. rewrite Hk. apply list_elem_of_fmap. eauto.
    + exfalso. apply Hx. rewrite <- Hk. apply list_elem_of_fmap. eauto.
Qed.

Lemma dict_del_elem k d e :
  NoDup d.*1 -> e ∈ dict_del k d <-> e ∈ d /\ e.1 ≠ k.
Proof.
  induction d as [|[k' v'] d IH]; simpl; intros Hnd.
  - rewrite elem_of_nil. tauto.
  - apply NoDup_cons in Hnd as [Hk Hnd].
    destruct (k' =? k) eqn:E.
    + apply Z.eqb_eq in E. subst k'. rewrite elem_of_cons. split.
      * intros He. split; [auto|]. intros <-. apply Hk.
        apply list_elem_of_fmap. eauto.
      * intros [[-> | He] Hne]; [simpl in Hne; congruence|exact He].
    + apply Z.eqb_neq in E. rewrite !elem_of_cons, IH by exact Hnd.
      split; [intros [-> | [? ?]]; simpl; auto|intuition].
Qed.

Lemma dict_del_length k d :
  k ∈ d.*1 -> S (length (dict_del k d)) = length d.
Proof.
  induction d as [|[k' v'] d IH]; simpl.
  - intros []%elem_of_nil.
  - intros [-> | H]%elem_of_cons.
    + now rewrite Z.eqb_refl.
    + destruct (k' =? k); [reflexivity|]. simpl. now rewrite IH.
Qed.

Lemma dict_del_sublist k d : dict_del k d `sublist_of` d.
Proof.
  induction d as [|[k' v'] d IH]; simpl; [constructor|].
  destruct (k' =? k); [now apply sublist_cons|now apply sublist_skip].
Qed.

Lemma dict_del_NoDup k d : NoDup d.*1 -> NoDup (dict_del k d).*1.
Proof.
  intros H. eapply sublist_NoDup; [exact H|].
  apply fmap_sublist, dict_del_sublist.
Qed.

Lemma dict_del_keeps k k' d :
  k ≠ k' -> dict_in k (dict_del k' d) = dict_in k d.
Proof.
  intros Hne. induction d as [|[k0 v0] d IH]; simpl; [reflexivity|].
  destruct (k0 =? k') eqn:E; simpl.
  - apply Z.eqb_eq in E. subst.
    destruct (k' =? k) eqn:E'; [apply Z.eqb_eq in E'; congruence|reflexivity].
  - now rewrite IH.
Qed.

Lemma del_all_sublist items d : del_all items d `sublist_of` d.
Proof.
  revert d. induction items as [|x items IH]; intros d; simpl; [reflexivity|].
  etransitivity; [apply IH|apply dict_del_sublist].
Qed.

Lemma del_all_keeps k items d :
  k ∉ items.*1 -> dict_in k (del_all items d) = dict_in k d.
Proof.
  revert d. induction items as [|x items IH]; intros d; simpl; [reflexivity|].
  intros [Hne Hk]%not_elem_of_cons. rewrite IH by exact Hk.
  now apply dict_del_keeps.
Qed.

Lemma del_all_spec items d :
  NoDup d.*1 -> NoDup items.*1 -> (forall e, e ∈ items -> e ∈ d) ->
  (length (del_all items d) + length items = length d)%nat /\
  (forall e, e ∈ del_all items d <-> e ∈ d /\ e.1 ∉ items.*1).
Proof.
  revert d. induction items as [|x items IH]; intros d Hd Hi Hsub; simpl.
  - split; [lia|]. intros e. rewrite elem_of_nil. tauto.
  - apply NoDup_cons in Hi as [Hx Hi].
    destruct (IH (dict_del x.1 d)) as [Hlen Hel].
    + now apply dict_del_NoDup.
    + exact Hi.
    + intros e He. apply dict_del_elem; [exact Hd|]. split.
      * apply Hsub, elem_of_cons. auto.
      * intros Heq. apply Hx. rewrite <- Heq.
        apply list_elem_of_fmap. eauto.
    + split.
      * assert (x.1 ∈ d.*1) as Hin.
        { apply list_elem_of_fmap. exists x. split; [reflexivity|].
          apply Hsub, elem_of_cons. auto. }
        apply dict_del_length in Hin. unfold del_all in *. simpl. lia.
      * intros e. unfold del_all in *. simpl. rewrite Hel.
        rewrite dict_del_elem by exact Hd. rewrite not_elem_of_cons. tauto.
Qed.

Lemma insert_by_ts_perm e d : insert_by_ts e d ≡ₚ e :: d.
Proof.
  induction d as [|y d IH]; simpl; [reflexivity|].
  destruct (e.2 <=? y.2); [reflexivity|].
  rewrite IH. apply Permutation_swap.
Qed.

Lemma sorted_by_ts_perm d : sorted_by_ts d ≡ₚ d.
Proof.
  induction d as [|x d IH]; simpl; [reflexivity|].
  now rewrite insert_by_ts_perm, IH.
Qed.

Lemma insert_by_ts_sorted e d :
  StronglySorted ts_le d -> StronglySorted ts_le (insert_by_ts e d).
Proof.
  induction 1 as [|y d Hd IH Hy]; simpl.
  - repeat constructor.
  - destruct (e.2 <=? y.2) eqn:E.
    + apply Z.leb_le in E. constructor; [now constructor|].
      constructor; [exact E|].
      eapply Forall_impl; [exact Hy|]. unfold ts_le. intros; lia.
    + apply Z.leb_gt in E. constructor; [exact IH|].
      rewrite insert_by_ts_perm. constructor; [unfold ts_le; lia|exact Hy].
Qed.

Lemma sorted_by_ts_sorted d : StronglySorted ts_le (sorted_by_ts d).
Proof.
  induction d as [|x d IH]; simpl; [constructor|].
  now apply insert_by_ts_sorted.
Qed.

(** A newest entry appended last stays last after sorting. *)
Lemma insert_by_ts_last e x d :
  e.2 <= x.2 -> insert_by_ts e (d ++ [x]) = insert_by_ts e d ++ [x].
Proof.
  intros Hle. induction d as [|y d IH]; simpl.
  - apply Z.leb_le in Hle. now rewrite Hle.
  - destruct (e.2 <=? y.2); [reflexivity|]. now rewrite IH.
Qed.

Lemma sorted_by_ts_last x d :
  (forall e, e ∈ d -> e.2 <= x.2) ->
  sorted_by_ts (d ++ [x]) = sorted_by_ts d ++ [x].
Proof.
  induction d as [|y d IH]; intros H; simpl; [reflexivity|].
  rewrite IH by (intros e He; apply H, elem_of_cons; auto).
  apply insert_by_ts_last, H, elem_of_cons. auto.
Qed.

(** What [evict] removes and what it keeps. *)
Lemma evict_spec d :
  NoDup d.*1 ->
  (Z.of_nat (length d) <= 20000 -> evict d = d) /\
  (20000 < Z.of_nat (length d) ->
   Z.of_nat (length (evict d)) = Z.of_nat (length d) - 2000 /\
   evict d `sublist_of` d /\
   (forall e e', e ∈ d -> e ∉ evict d -> e' ∈ evict d -> e.2 <= e'.2)).
Proof.
  intros Hnd. unfold evict. split.
  - intros H. apply Z.ltb_ge in H. now rewrite H.
  - intros H. pose proof H as Hb. apply Z.ltb_lt in Hb. rewrite Hb.
    set (S := sorted_by_ts d).
    set (F := take (Z.to_nat 2000) S).
    assert (HS : S ≡ₚ d) by apply sorted_by_ts_perm.
    assert (HlenF : length F = Z.to_nat 2000).
    { unfold F. rewrite length_take_le; [reflexivity|].
      rewrite (Permutation_length HS). lia. }
    assert (HsubF : forall e, e ∈ F -> e ∈ d).
    { intros e He. rewrite <- HS. eapply elem_of_sublist; [exact He|].
      apply sublist_take. }
    assert (HndS : NoDup S.*1) by (now rewrite HS).
    assert (HndF : NoDup F.*1).
    { eapply sublist_NoDup; [exact HndS|]. apply fmap_sublist, sublist_take. }
    destruct (del_all_spec F d Hnd HndF HsubF) as [Hlen Hel].
    split; [lia|]. split; [apply del_all_sublist|].
    intros e e' He Hne He'.
    apply Hel in He' as [He'd He'F].
    assert (HeF : e ∈ F).
    { destruct (decide (e.1 ∈ F.*1)) as [Hin|Hout].
      - apply list_elem_of_fmap in Hin as (x & Hx1 & Hx).
        assert (e = x) as ->; [|exact Hx].
        apply (keys_unique d); auto.
      - exfalso. apply Hne, Hel. auto. }
    assert (He'R : e' ∈ drop (Z.to_nat 2000) S).
    { assert (e' ∈ S) as HeS by (now rewrite HS).
      rewrite <- (take_drop (Z.to_nat 2000) S) in HeS.
      apply elem_of_app in HeS as [HeS|HeS]; [|exact HeS].
      exfalso. apply He'F. apply list_elem_of_fmap. eauto. }
    pose proof (sorted_by_ts_sorted d) as Hsorted. fold S in Hsorted.
    rewrite <- (take_drop (Z.to_nat 2000) S) in Hsorted.
    exact (StronglySorted_app_1_elem_of _ _ _ _ _ Hsorted HeF He'R).
Qed.

End Dedup.

Lemma dict_set_length k v d :
  (length d <= length (dict_set k v d) <= S (length d))%nat.
Proof.
  rewrite <- !(length_fmap fst), dict_set_keys.
  destruct (dict_in k d); rewrite ?length_app; simpl; lia.
Qed.

(** C7. [mark_processed] records the id with its timestamp; when the table
    then has more than 20000 entries it removes exactly 2000 of them, each
    stamped no later than every entry that stays.  In particular a table of
    20001 entries ends 2000 entries shorter than without eviction. *)
Theorem C7_mark_processed_eviction (w : World) (id ts : Z) :
  NoDup (processed_ids w).*1 ->
  let recorded := dict_set id ts (processed_ids w) in
  let after := processed_ids (run (mark_processed id ts) w) in
  (id, ts) ∈ recorded /\ NoDup recorded.*1 /\
  (Z.of_nat (length recorded) <= 20000 -> after = recorded) /\
  (20000 < Z.of_nat (length recorded) ->
   Z.of_nat (length after) = Z.of_nat (length recorded) - 2000 /\
   after `sublist_of` recorded /\
   (forall e e', e ∈ recorded -> e ∉ after -> e' ∈ after -> e.2 <= e'.2)) /\
  (Z.of_nat (length (processed_ids w)) = 20001 ->
   Z.of_nat (length after) = Z.of_nat (length recorded) - 2000).
Proof.
  intros Hnd recorded after.
  assert (Hr : NoDup recorded.*1) by (now apply dict_set_NoDup).
  assert (after = evict recorded) as -> by reflexivity.
  destruct (evict_spec recorded Hr) as [Hsmall Hbig].
  split; [apply dict_set_elem|]. split; [exact Hr|]. split; [exact Hsmall|].
  split; [exact Hbig|]. intros Hlen. apply Hbig.
  pose proof (dict_set_length id ts (processed_ids w)). fold recorded in H.
  lia.
Qed.

Lemma stamped_keys_ge n k ts k' : k' ∈ (stamped n k ts).*1 -> k <= k'.
Proof.
  revert k. induction n as [|n IH]; intros k; csimpl.
  - intros []%elem_of_nil.
  - intros [-> | H]%elem_of_cons; [lia|]. apply IH in H. lia.
Qed.

Lemma stamped_NoDup n k ts : NoDup (stamped n k ts).*1.
Proof.
  revert k. induction n as [|n IH]; intros k; csimpl; constructor; auto.
  intros H%stamped_keys_ge. lia.
Qed.

Lemma C7_mark_processed_witness :
  Z.of_nat (length (processed_ids
     (run (mark_processed 99999 30000)
          (world_of store_20001 (fun _ => 0))))) = 20002 - 2000.
Proof.
  destruct (C7_mark_processed_eviction
              (world_of store_20001 (fun _ => 0)) 99999 30000
              (stamped_NoDup _ _ _)) as (_ & _ & _ & _ & H).
  etransitivity; [apply H|]; vm_compute; reflexivity.
Defined.

(** ** The live handler *)

Lemma evict_keeps_newest id ts d :
  id ∉ d.*1 -> (forall e, e ∈ d -> e.2 <= ts) ->
  dict_in id (evict (dict_set id ts d)) = true.
Proof.
  intros Hid Hts. rewrite dict_set_fresh by exact Hid. unfold evict.
  destruct (20000 <? Z.of_nat (length (d ++ [(id, ts)]))) eqn:E.
  - apply Z.ltb_lt in E. rewrite length_app in E. simpl in E.
    rewrite del_all_keeps.
    + apply dict_in_keys. rewrite fmap_app. apply elem_of_app. right.
      now apply list_elem_of_singleton.
    + rewrite sorted_by_ts_last by exact Hts.
      rewrite take_app_le
        by (rewrite (Permutation_length (sorted_by_ts_perm d)); lia).
      intros H. apply Hid. rewrite <- (sorted_by_ts_perm d).
      eapply elem_of_sublist; [exact H|]. apply fmap_sublist, sublist_take.
  - apply dict_in_keys. rewrite fmap_app. apply elem_of_app. right.
    now apply list_elem_of_singleton.
Qed.

Lemma evict_introduces_nothing k d :
  dict_in k (evict d) = true -> dict_in k d = true.
Proof.
  rewrite !dict_in_keys. unfold evict.
  destruct (20000 <? Z.of_nat (length d)); [|auto].
  intros H. eapply elem_of_sublist; [exact H|].
  apply fmap_sublist, del_all_sublist.
Qed.

Lemma dict_in_set_other k id ts d :
  k ≠ id -> dict_in k (dict_set id ts d) = dict_in k d.
Proof.
  intros Hne. induction d as [|[k' v'] d IH]; simpl.
  - destruct (id =? k) eqn:E; [apply Z.eqb_eq in E; congruence|reflexivity].
  - destruct (k' =? id) eqn:E; simpl; [|now rewrite IH].
    apply Z.eqb_eq in E. subst k'.
    destruct (id =? k) eqn:E'; [apply Z.eqb_eq in E'; congruence|reflexivity].
Qed.

Lemma mark_keeps_unseen k id ts d :
  k ≠ id -> dict_in k d = false -> dict_in k (evict (dict_set id ts d)) = false.
Proof.
  intros Hne Hk. destruct (dict_in k (evict (dict_set id ts d))) eqn:E; auto.
  apply evict_introduces_nothing in E.
  rewrite dict_in_set_other in E by exact Hne. congruence.
Qed.

Lemma resolve_order_id_pure msg w : (resolve_order_id msg w).2 = w.
Proof.
  unfold resolve_order_id, get_order_id_for_msg, bind, get, ret.
  destruct (linked_id msg); simpl; [|reflexivity].
  destruct (db_messages w !! z) as [r|]; simpl; [|reflexivity].
  destruct (nonempty (r_order_id r)); reflexivity.
Qed.


Lemma handler_command sfx msg w c0 :
  dict_in (msg_id msg) (processed_ids w) = false ->
  parse_message sfx msg = Some c0 ->
  let oid := (resolve_order_id msg w).1 in
  let w' := run (handler sfx msg) w in
  jsonl_file w' = jsonl_file w ++ [with_order_id c0 oid] /\
  csv_file w' =
    Some (match csv_file w with None => [CSV_HEADER] | Some rows => rows end
          ++ [csv_row (with_order_id c0 oid)]) /\
  clock w' = clock w /\
  (exists n, processed_ids w' =
             evict (dict_set (msg_id msg) (clock w n) (processed_ids w))) /\
  (exists r, r_order_id r = oid /\
             db_messages w' = <[msg_id msg := r]> (db_messages w)) /\
  (exists o, o_messages o = linked_messages (msg_id msg) (db_orders w !! oid) /\
             db_orders w' = <[oid := o]> (db_orders w)).
Proof.
  intros Hseen Hparse oid w'. subst w'.
  unfold run, handler, already_processed, bind, get, ret. simpl.
  rewrite Hseen, Hparse.
  pose proof (resolve_order_id_pure msg w) as Hpure. subst oid.
  destruct (resolve_order_id msg w) as [oid w0]. simpl in Hpure. subst w0.
  simpl. unfold link_message_to_order, bind, get. simpl.
  destruct (db_orders w !! oid) as [o|] eqn:Ho; simpl;
    (destruct (csv_file w); simpl; repeat split; eauto;
     eexists; (split; [|reflexivity]); reflexivity).
Qed.

Lemma handler_ignored sfx msg w :
  dict_in (msg_id msg) (processed_ids w) = false ->
  parse_message sfx msg = None ->
  let w' := run (handler sfx msg) w in
  jsonl_file w' = jsonl_file w /\ csv_file w' = csv_file w /\
  clock w' = clock w /\
  (exists n, processed_ids w' =
             evict (dict_set (msg_id msg) (clock w n) (processed_ids w))) /\
  db_messages w' = db_messages w /\ db_orders w' = db_orders w.
Proof.
  intros Hseen Hparse w'. subst w'.
  unfold run, handler, already_processed, bind, get, ret. simpl.
  rewrite Hseen, Hparse. simpl. repeat split; eauto.
Qed.




(** ** Order linkage *)

Lemma str_inj n m : str n = str m -> n = m.
Proof.
  unfold str. intros H. apply to_int_inj.
  assert (Hnn : forall z, Z.to_int z <> Decimal.Pos Decimal.Nil /\
                          Z.to_int z <> Decimal.Neg Decimal.Nil).
  { intros [|p|p]; simpl; split; try discriminate;
      intros [= Hp]; now apply Unsigned.to_uint_nonnil in Hp. }
  destruct (Hnn n) as [Hn1 Hn2], (Hnn m) as [Hm1 Hm2].
  pose proof (NilZero.isi _ Hn1 Hn2) as En.
  pose proof (NilZero.isi _ Hm1 Hm2) as Em.
  rewrite H in En. congruence.
Qed.

Lemma order_msg_inj n m : order_msg n = order_msg m -> n = m.
Proof. unfold order_msg. simpl. intros [= H]. now apply str_inj. Qed.

Lemma order_msg_nonempty n : nonempty (order_msg n) = true.
Proof. reflexivity. Qed.

Lemma resolve_root msg w :
  reply_to_msg_id msg = None ->
  (resolve_order_id msg w).1 = order_msg (msg_id msg).
Proof. intros H. unfold resolve_order_id, linked_id. now rewrite H. Qed.

Lemma resolve_reply msg w linked r :
  reply_to_msg_id msg = Some linked -> linked ≠ 0 ->
  db_messages w !! linked = Some r -> nonempty (r_order_id r) = true ->
  (resolve_order_id msg w).1 = r_order_id r.
Proof.
  intros H Hz Hr Hne. unfold resolve_order_id, linked_id. rewrite H.
  destruct (linked =? 0) eqn:E; [apply Z.eqb_eq in E; congruence|].
  unfold get_order_id_for_msg, bind, get, ret. simpl. rewrite Hr. simpl.
  now rewrite Hne.
Qed.

Lemma resolve_cases msg w :
  (resolve_order_id msg w).1 = order_msg (msg_id msg) \/
  exists linked r, db_messages w !! linked = Some r /\
                   (resolve_order_id msg w).1 = r_order_id r /\
                   nonempty (r_order_id r) = true.
Proof.
  unfold resolve_order_id, get_order_id_for_msg, bind, get, ret.
  destruct (linked_id msg) as [linked|]; simpl; [|now left].
  destruct (db_messages w !! linked) as [r|] eqn:Hr; simpl; [|now left].
  destruct (nonempty (r_order_id r)) eqn:Hne; simpl; [|now left].
  right. eauto.
Qed.

Lemma ledger_wf_empty d clk : ledger_wf (world_of d clk).
Proof. split; simpl; intros ? ? H; now rewrite lookup_empty in H. Qed.


(** C6. From a well-formed ledger that does not hold the root message, a
    root message without reply target followed by two messages that each
    reply to the one before, all yielding Commands: the three emitted
    Commands carry, in their order id field, the order id minted from the
    root's id; each of the three messages then resolves to that order id in
    the ledger; and that order's message sequence is
    [root; second; third]. *)
Theorem C6_reply_chain_same_order (sfx : string) (w : World)
    (root second third : Message) (c1 c2 c3 : Command) :
  ledger_wf w ->
  db_messages w !! msg_id root = None ->
  dict_in (msg_id root) (processed_ids w) = false ->
  dict_in (msg_id second) (processed_ids w) = false ->
  dict_in (msg_id third) (processed_ids w) = false ->
  msg_id root ≠ msg_id second -> msg_id root ≠ msg_id third ->
  msg_id second ≠ msg_id third ->
  msg_id root ≠ 0 -> msg_id second ≠ 0 ->
  reply_to_msg_id root = None ->
  reply_to_msg_id second = Some (msg_id root) ->
  reply_to_msg_id third = Some (msg_id second) ->
  parse_message sfx root = Some c1 ->
  parse_message sfx second = Some c2 ->
  parse_message sfx third = Some c3 ->
  let w3 := run (handler sfx third)
              (run (handler sfx second) (run (handler sfx root) w)) in
  let oid := order_msg (msg_id root) in
  (exists e1 e2 e3,
     jsonl_file w3 = jsonl_file w ++ [e1; e2; e3] /\
     order_id e1 = oid /\ order_id e2 = oid /\ order_id e3 = oid /\
     e1 = with_order_id c1 oid /\ e2 = with_order_id c2 oid /\
     e3 = with_order_id c3 oid) /\
  (get_order_id_for_msg (msg_id root) w3).1 = Some oid /\
  (get_order_id_for_msg (msg_id second) w3).1 = Some oid /\
  (get_order_id_for_msg (msg_id third) w3).1 = Some oid /\
  exists o, db_orders w3 !! oid = Some o /\
            o_messages o = [msg_id root; msg_id second; msg_id third].
Proof.
  intros [Hwo _] Hfresh Hs1 Hs2 Hs3 H12 H13 H23 Hz1 Hz2 Hr1 Hr2 Hr3 Hp1 Hp2 Hp3
         w3 oid.
  (* the root mints the order *)
  assert (Hnew : db_orders w !! oid = None).
  { destruct (db_orders w !! oid) as [o|] eqn:Ho; [|reflexivity].
    destruct (Hwo _ _ Ho) as (m & Hm & [r Hs]).
    apply order_msg_inj in Hm. subst m. congruence. }
  destruct (handler_command sfx root w c1 Hs1 Hp1)
    as (Hj1 & _ & Hc1 & [n1 Hd1] & (r1 & Ho1 & Hm1) & (o1 & Hl1 & Hdb1)).
  rewrite (resolve_root root w Hr1) in Hj1, Ho1, Hl1, Hdb1.
  fold oid in Hj1, Ho1, Hl1, Hdb1.
  rewrite Hnew in Hl1. simpl in Hl1.
  set (w1 := run (handler sfx root) w) in *.
  (* the second message finds the root's order *)
  assert (Hs2' : dict_in (msg_id second) (processed_ids w1) = false).
  { rewrite Hd1. apply mark_keeps_unseen; auto. }
  assert (Hs3' : dict_in (msg_id third) (processed_ids w1) = false).
  { rewrite Hd1. apply mark_keeps_unseen; auto. }
  assert (Hrec1 : db_messages w1 !! msg_id root = Some r1).
  { rewrite Hm1. apply lookup_insert_eq. }
  assert (Hres2 : (resolve_order_id second w1).1 = oid).
  { rewrite <- Ho1. apply (resolve_reply second w1 (msg_id root)); auto.
    rewrite Ho1. reflexivity. }
  destruct (handler_command sfx second w1 c2 Hs2' Hp2)
    as (Hj2 & _ & Hc2 & [n2 Hd2] & (r2 & Ho2 & Hm2) & (o2 & Hl2 & Hdb2)).
  rewrite Hres2 in Hj2, Ho2, Hl2, Hdb2.
  rewrite Hdb1, lookup_insert_eq in Hl2. simpl in Hl2. rewrite Hl1 in Hl2.
  simpl in Hl2.
  destruct (msg_id second =? msg_id root) eqn:E12;
    [apply Z.eqb_eq in E12; congruence|]. simpl in Hl2.
  set (w2 := run (handler sfx second) w1) in *.
  (* the third message finds it through the second *)
  assert (Hs3'' : dict_in (msg_id third) (processed_ids w2) = false).
  { rewrite Hd2. apply mark_keeps_unseen; auto. }
  assert (Hrec2 : db_messages w2 !! msg_id second = Some r2).
  { rewrite Hm2. apply lookup_insert_eq. }
  assert (Hres3 : (resolve_order_id third w2).1 = oid).
  { rewrite <- Ho2. apply (resolve_reply third w2 (msg_id second)); auto.
    rewrite Ho2. reflexivity. }
  destruct (handler_command sfx third w2 c3 Hs3'' Hp3)
    as (Hj3 & _ & _ & _ & (r3 & Ho3 & Hm3) & (o3 & Hl3 & Hdb3)).
  rewrite Hres3 in Hj3, Ho3, Hl3, Hdb3.
  rewrite Hdb2, lookup_insert_eq in Hl3. simpl in Hl3. rewrite Hl2 in Hl3.
  simpl in Hl3.
  destruct (msg_id third =? msg_id root) eqn:E13;
    [apply Z.eqb_eq in E13; congruence|].
  destruct (msg_id third =? msg_id second) eqn:E23;
    [apply Z.eqb_eq in E23; congruence|]. simpl in Hl3.
  fold w3 in Hj3, Hm3, Hdb3.
  unfold get_order_id_for_msg, bind, get, ret. cbn [fst].
  rewrite Hm3, Hm2, Hm1. split; [|split; [|split; [|split]]].
  - exists (with_order_id c1 oid), (with_order_id c2 oid),
           (with_order_id c3 oid).
    split; [|repeat split].
    rewrite Hj3, Hj2, Hj1, <- !app_assoc. reflexivity.
  - rewrite !lookup_insert_ne, lookup_insert_eq by congruence.
    simpl. now rewrite Ho1.
  - rewrite lookup_insert_ne, lookup_insert_eq by congruence.
    simpl. now rewrite Ho2.
  - rewrite lookup_insert_eq. simpl. now rewrite Ho3.
  - exists o3. split; [|exact Hl3]. rewrite Hdb3. apply lookup_insert_eq.
Qed.

Lemma C6_reply_chain_witness :
  exists e1 e2 e3 o,
    jsonl_file
      (run (handler "-STD" sample_cancel)
         (run (handler "-STD" sample_update)
            (run (handler "-STD" sample_open)
               (world_of [] (fun n => 1000 + Z.of_nat n)))))
    = [] ++ [e1; e2; e3] /\
    order_id e1 = "order_msg5" /\ order_id e2 = "order_msg5" /\
    order_id e3 = "order_msg5" /\
    db_orders
      (run (handler "-STD" sample_cancel)
         (run (handler "-STD" sample_update)
            (run (handler "-STD" sample_open)
               (world_of [] (fun n => 1000 + Z.of_nat n)))))
      !! "order_msg5" = Some o /\
    o_messages o = [5; 6; 7].
Proof.
  assert (Hp : forall m, In m [sample_open; sample_update; sample_cancel] ->
                 exists c, parse_message "-STD" m = Some c).
  { intros m [<- | [<- | [<- | []]]]; eexists; vm_compute; reflexivity. }
  destruct (Hp sample_open) as [c1 Hp1]; [simpl; auto|].
  destruct (Hp sample_update) as [c2 Hp2]; [simpl; auto|].
  destruct (Hp sample_cancel) as [c3 Hp3]; [simpl; auto|].
  destruct (C6_reply_chain_same_order "-STD"
              (world_of [] (fun n => 1000 + Z.of_nat n))
              sample_open sample_update sample_cancel c1 c2 c3
              (ledger_wf_empty _ _) eq_refl eq_refl eq_refl eq_refl
              ltac:(discriminate) ltac:(discriminate) ltac:(discriminate)
              ltac:(discriminate) ltac:(discriminate)
              eq_refl eq_refl eq_refl Hp1 Hp2 Hp3)
    as ((e1 & e2 & e3 & Hj & H1 & H2 & H3 & _) & _ & _ & _ & o & Ho & Hm).
  exists e1, e2, e3, o. auto 10.
Defined.

(** ** Facts about characters *)

Lemma AZ_facts c :
  is_AZ c = true ->
  is_word c = true /\ is_space c = false /\
  upper_char c = String c "" /\
  Ascii.eqb c " " = false /\ Ascii.eqb c "/" = false.
Proof.
  destruct c as [[|] [|] [|] [|] [|] [|] [|] [|]];
    vm_compute; intros H; try discriminate H; repeat split.
Qed.

Lemma space_facts c :
  is_space c = true -> Ascii.eqb "/" c = false /\ is_AZ c = false.
Proof.
  destruct c as [[|] [|] [|] [|] [|] [|] [|] [|]];
    vm_compute; intros H; try discriminate H; repeat split.
Qed.

(** ** Facts about strings *)

Lemma last_char_append prev a b :
  last_char prev (a +:+ b) = last_char (last_char prev a) b.
Proof. revert prev. induction a; intros prev; simpl; auto. Qed.

Lemma consumed_append a s : consumed (a +:+ s) s = a.
Proof.
  unfold consumed. rewrite length_append.
  replace (String.length a + String.length s - String.length s)%nat
    with (String.length a) by lia.
  induction a as [|c a IH]; simpl.
  - destruct s; reflexivity.
  - now rewrite IH.
Qed.

Lemma append_eq_length a b a' b' :
  a +:+ b = a' +:+ b' -> String.length a = String.length a' ->
  a = a' /\ b = b'.
Proof.
  revert a'. induction a as [|c a IH]; intros [|c' a']; simpl;
    try discriminate; auto.
  intros [= -> H] [= Hl]. destruct (IH _ H Hl) as [-> ->]. auto.
Qed.

Lemma letters_head n a rest :
  letters (S n) a -> word_at (head_char (a +:+ rest)) = true.
Proof.
  intros [Hl Ha]. destruct a as [|c a]; [discriminate|]. simpl in *.
  apply andb_true_iff in Ha as [Hc _]. now apply AZ_facts.
Qed.

Lemma letters_last n a prev :
  letters (S n) a -> word_at (last_char prev a) = true.
Proof.
  intros [Hl Ha]. revert n prev Hl Ha.
  induction a as [|c a IH]; intros n prev Hl Ha; [discriminate|].
  simpl in *. apply andb_true_iff in Ha as [Hc Ha].
  destruct a as [|c' a'].
  - simpl. now apply AZ_facts.
  - destruct n as [|n]; [discriminate|]. apply (IH n); auto.
Qed.

Lemma letters_nonempty n a : letters (S n) a -> nonempty a = true.
Proof. intros [Hl _]. now destruct a. Qed.

Lemma letters_upper n a : letters n a -> upper a = a.
Proof.
  intros [_ Ha]. induction a as [|c a IH]; [reflexivity|]. simpl in *.
  apply andb_true_iff in Ha as [Hc Ha].
  destruct (AZ_facts c Hc) as (_ & _ & -> & _). simpl. now rewrite IH.
Qed.

Lemma letters_strip n a : letters n a -> strip a = a.
Proof.
  intros [_ Ha]. unfold strip.
  assert (lstrip a = a) as ->.
  { destruct a as [|c a]; [reflexivity|]. simpl in *.
    apply andb_true_iff in Ha as [Hc _].
    now destruct (AZ_facts c Hc) as (_ & -> & _). }
  induction a as [|c a IH]; [reflexivity|]. simpl in *.
  apply andb_true_iff in Ha as [Hc Ha]. rewrite IH by exact Ha.
  destruct (AZ_facts c Hc) as (_ & -> & _). now destruct a.
Qed.

Lemma letters_replace n a old new :
  letters n a -> (forall c, is_AZ c = true -> Ascii.eqb c old = false) ->
  replace old new a = a.
Proof.
  intros [_ Ha] Hold. induction a as [|c a IH]; [reflexivity|]. simpl in *.
  apply andb_true_iff in Ha as [Hc Ha].
  now rewrite (Hold c Hc), IH.
Qed.

Lemma letters_append n m a b :
  letters n a -> letters m b -> letters (n + m) (a +:+ b).
Proof.
  intros [Hl Ha] [Hl' Hb]. split.
  - rewrite length_append. lia.
  - rewrite all_chars_append, Ha, Hb. reflexivity.
Qed.

Lemma normalize_symbol_letters sfx n a :
  letters n a -> normalize_symbol sfx a = a +:+ sfx.
Proof.
  intros H. unfold normalize_symbol.
  rewrite (letters_strip n), (letters_upper n) by exact H.
  rewrite (letters_replace n a " " "" H)
    by (intros c Hc; now apply AZ_facts).
  rewrite (letters_replace n a "/" "" H)
    by (intros c Hc; now apply AZ_facts).
  reflexivity.
Qed.

(** ** The matcher on the constructs of the symbol patterns *)

Lemma m_eps (k : cont) prev s cs : rmatch (Seq []) k prev s cs = k prev s cs.
Proof. reflexivity. Qed.

Lemma m_wordb R (k : cont) prev s cs res :
  rmatch (Cat WordB R) k prev s cs = Some res <->
  xorb (word_at prev) (word_at (head_char s)) = true /\
  rmatch R k prev s cs = Some res.
Proof.
  simpl. destruct (xorb (word_at prev) (word_at (head_char s)));
    intuition discriminate.
Qed.

Lemma m_lit_k l (k : cont) prev s cs res :
  rmatch (Lit l) k prev s cs = Some res <->
  exists s1, s = l +:+ s1 /\ k (last_char prev l) s1 cs = Some res.
Proof.
  revert prev s. induction l as [|c l IH]; intros prev s; simpl.
  - split; [eauto|]. now intros (s1 & -> & H).
  - destruct s as [|c' s'].
    + split; [discriminate|]. now intros (s1 & [=] & _).
    + destruct (Ascii.eqb_spec c c') as [<-|Hne].
      * rewrite IH. split; intros (s1 & Hs & H); exists s1.
        -- subst. auto.
        -- injection Hs as ->. auto.
      * split; [discriminate|]. intros (s1 & [= Hc _] & _). congruence.
Qed.

Lemma m_lit l R (k : cont) prev s cs res :
  rmatch (Cat (Lit l) R) k prev s cs = Some res <->
  exists s1, s = l +:+ s1 /\ rmatch R k (last_char prev l) s1 cs = Some res.
Proof. apply m_lit_k. Qed.

Lemma m_classes p m (k : cont) prev s cs res :
  rmatch (Seq (map Cls (List.repeat p m))) k prev s cs = Some res <->
  exists a s1, s = a +:+ s1 /\ String.length a = m /\
               all_chars p a = true /\ k (last_char prev a) s1 cs = Some res.
Proof.
  revert prev s. induction m as [|m IH]; intros prev s; simpl.
  - split.
    + intros H. exists "", s. auto.
    + intros (a & s1 & -> & Hl & _ & H). now destruct a.
  - destruct s as [|c s'].
    + split; [discriminate|]. intros (a & s1 & Hs & Hl & _).
      destruct a; discriminate.
    + destruct (p c) eqn:Hc.
      * rewrite IH. split.
        -- intros (a & s1 & -> & Hl & Ha & H). exists (String c a), s1.
           simpl. rewrite Hc, Ha, Hl. auto.
        -- intros (a & s1 & Hs & Hl & Ha & H).
           destruct a as [|c' a]; [discriminate|]. simpl in *.
           injection Hs as <- ->. injection Hl as Hl.
           apply andb_true_iff in Ha as [_ Ha]. exists a, s1. auto.
      * split; [discriminate|]. intros (a & s1 & Hs & Hl & Ha & _).
        destruct a as [|c' a]; [discriminate|]. simpl in *.
        injection Hs as <- _. rewrite Hc in Ha. discriminate.
Qed.

Lemma m_group_classes n p m R (k : cont) prev s cs res :
  rmatch (Cat (Group n (Seq (map Cls (List.repeat p m)))) R) k prev s cs
    = Some res <->
  exists a s1, s = a +:+ s1 /\ String.length a = m /\
               all_chars p a = true /\
               rmatch R k (last_char prev a) s1 ((n, a) :: cs) = Some res.
Proof.
  change (rmatch (Cat (Group n (Seq (map Cls (List.repeat p m)))) R)
                 k prev s cs)
    with (rmatch (Seq (map Cls (List.repeat p m)))
            (fun prev' s' cs' =>
               rmatch R k prev' s' ((n, consumed s s') :: cs')) prev s cs).
  rewrite m_classes. split; intros (a & s1 & -> & Hl & Ha & H);
    exists a, s1; rewrite consumed_append in *; auto.
Qed.

Lemma m_AZ3 n R (k : cont) prev s cs res :
  rmatch (Cat (Group n AZ3) R) k prev s cs = Some res <->
  exists a s1, s = a +:+ s1 /\ letters 3 a /\
               rmatch R k (last_char prev a) s1 ((n, a) :: cs) = Some res.
Proof.
  rewrite (m_group_classes n is_AZ 3). unfold letters.
  split; intros (a & s1 & H); exists a, s1; tauto.
Qed.

Lemma m_AZ6 n R (k : cont) prev s cs res :
  rmatch (Cat (Group n AZ6) R) k prev s cs = Some res <->
  exists a s1, s = a +:+ s1 /\ letters 6 a /\
               rmatch R k (last_char prev a) s1 ((n, a) :: cs) = Some res.
Proof.
  rewrite (m_group_classes n is_AZ 6). unfold letters.
  split; intros (a & s1 & H); exists a, s1; tauto.
Qed.

Lemma m_star_sound p R (k : cont) prev s cs res :
  rmatch (Cat (Star p) R) k prev s cs = Some res ->
  exists ws s1, s = ws +:+ s1 /\ all_chars p ws = true /\
                rmatch R k (last_char prev ws) s1 cs = Some res.
Proof.
  simpl. revert prev. induction s as [|c s IH]; intros prev; simpl.
  - intros H. exists "", "". auto.
  - destruct (p c) eqn:Hc.
    + destruct (star_greedy p (rmatch R k) (Some c) s cs) eqn:E.
      * intros [= ->]. destruct (IH _ E) as (ws & s1 & -> & Hw & H).
        exists (String c ws), s1. simpl. rewrite Hc, Hw. auto.
      * intros H. exists "", (String c s). auto.
    + intros H. exists "", (String c s). auto.
Qed.

(** Greedy repetition is deterministic when what follows cannot start with
    a character of the class. *)
Lemma m_star_complete p R (k : cont) prev ws s1 cs res :
  (forall prev' c r cs', p c = true ->
                         rmatch R k prev' (String c r) cs' = None) ->
  all_chars p ws = true ->
  rmatch R k (last_char prev ws) s1 cs = Some res ->
  rmatch (Cat (Star p) R) k prev (ws +:+ s1) cs = Some res.
Proof.
  intros Hfail. simpl. revert prev.
  induction ws as [|c ws IH]; intros prev Hw H; simpl in *.
  - destruct s1 as [|c r]; [exact H|]. simpl.
    destruct (p c) eqn:Hc; [|exact H].
    rewrite Hfail in H by exact Hc. discriminate.
  - apply andb_true_iff in Hw as [Hc Hw]. rewrite Hc.
    now rewrite (IH (Some c) Hw H).
Qed.

(** The pair pattern, anchored at a position. *)
Lemma pair_here prev s cs :
  match_here re_pair prev s = Some cs <->
  exists a ws1 ws2 b post,
    s = a +:+ ws1 +:+ "/" +:+ ws2 +:+ b +:+ post /\
    letters 3 a /\ letters 3 b /\
    all_chars is_space ws1 = true /\ all_chars is_space ws2 = true /\
    word_at prev = false /\ word_at (head_char post) = false /\
    cs = [(2%nat, b); (1%nat, a)].
Proof.
  unfold match_here, re_pair. cbn [Seq]. split.
  - intros H.
    apply m_wordb in H as [Hb H].
    apply m_AZ3 in H as (a & s1 & -> & Ha & H).
    apply m_star_sound in H as (ws1 & s2 & -> & Hw1 & H).
    apply m_lit in H as (s3 & -> & H).
    apply m_star_sound in H as (ws2 & s4 & -> & Hw2 & H).
    apply m_AZ3 in H as (b & post & -> & Hbl & H).
    apply m_wordb in H as [He H]. simpl in H. injection H as <-.
    rewrite (letters_head 2 a) in Hb by exact Ha.
    rewrite (letters_last 2 b) in He by exact Hbl.
    exists a, ws1, ws2, b, post.
    repeat match goal with |- _ /\ _ => split end; auto.
    + now destruct (word_at prev).
    + now destruct (word_at (head_char post)).
  - intros (a & ws1 & ws2 & b & post & -> & Ha & Hbl & Hw1 & Hw2 & Hp & He
            & ->).
    apply m_wordb. split.
    { rewrite (letters_head 2 a) by exact Ha. now rewrite Hp. }
    apply m_AZ3. exists a, (ws1 +:+ "/" +:+ ws2 +:+ b +:+ post).
    split; [reflexivity|]. split; [exact Ha|].
    apply m_star_complete; [|exact Hw1|].
    { intros prev' c r cs' Hc. cbn [rmatch Lit].
      now destruct (space_facts c Hc) as [-> _]. }
    apply m_lit. exists (ws2 +:+ b +:+ post). split; [reflexivity|].
    apply m_star_complete; [|exact Hw2|].
    { intros prev' c r cs' Hc. unfold AZ3. cbn [rmatch Seq].
      now destruct (space_facts c Hc) as [_ ->]. }
    apply m_AZ3. exists b, post. split; [reflexivity|]. split; [exact Hbl|].
    apply m_wordb. split; [|reflexivity].
    rewrite (letters_last 2 b) by exact Hbl. now rewrite He.
Qed.

(** The six-letter pattern, anchored at a position. *)
Lemma six_here prev s cs :
  match_here re_six prev s = Some cs <->
  exists w post,
    s = w +:+ post /\ letters 6 w /\
    word_at prev = false /\ word_at (head_char post) = false /\
    cs = [(1%nat, w)].
Proof.
  unfold match_here, re_six. cbn [Seq]. split.
  - intros H.
    apply m_wordb in H as [Hb H].
    apply m_AZ6 in H as (a & post & -> & Ha & H).
    apply m_wordb in H as [He H]. simpl in H. injection H as <-.
    rewrite (letters_head 5 a) in Hb by exact Ha.
    rewrite (letters_last 5 a) in He by exact Ha.
    exists a, post.
    repeat match goal with |- _ /\ _ => split end; auto.
    + now destruct (word_at prev).
    + now destruct (word_at (head_char post)).
  - intros (a & post & -> & Ha & Hp & He & ->).
    apply m_wordb. split.
    { rewrite (letters_head 5 a) by exact Ha. now rewrite Hp. }
    apply m_AZ6. exists a, post. split; [reflexivity|]. split; [exact Ha|].
    apply m_wordb. split; [|reflexivity].
    rewrite (letters_last 5 a) by exact Ha. now rewrite He.
Qed.

(** ** Searching *)

Lemma search_from_None r prev s :
  search_from r prev s = None <->
  forall pre post, s = pre +:+ post ->
                   match_here r (last_char prev pre) post = None.
Proof.
  revert prev. induction s as [|c s IH]; intros prev; simpl.
  - split.
    + intros H pre post Hs. destruct pre; [|discriminate]. simpl in *.
      subst post. now destruct (match_here r prev "").
    + intros H. pose proof (H "" "" eq_refl) as E. simpl in E.
      now rewrite E.
  - split.
    + intros H pre post Hs.
      destruct (match_here r prev (String c s)) eqn:E; [discriminate|].
      destruct pre as [|c' pre]; simpl in *; [now subst post|].
      injection Hs as <- ->. apply (proj1 (IH (Some c)) H). reflexivity.
    + intros H. pose proof (H "" (String c s) eq_refl) as E. simpl in E.
      rewrite E. apply IH. intros pre post ->. apply (H (String c pre) post).
      reflexivity.
Qed.

Lemma search_from_Some r prev s cs :
  search_from r prev s = Some cs ->
  exists pre post,
    s = pre +:+ post /\ match_here r (last_char prev pre) post = Some cs /\
    forall pre' post', s = pre' +:+ post' ->
      (String.length pre' < String.length pre)%nat ->
      match_here r (last_char prev pre') post' = None.
Proof.
  revert prev. induction s as [|c s IH]; intros prev; simpl.
  - destruct (match_here r prev "") eqn:E; [|discriminate].
    intros [= ->]. exists "", "". repeat split; auto. simpl. lia.
  - destruct (match_here r prev (String c s)) eqn:E.
    + intros [= ->]. exists "", (String c s). repeat split; auto.
      simpl. lia.
    + intros H. destruct (IH _ H) as (pre & post & -> & Hm & Hleft).
      exists (String c pre), post. repeat split; auto.
      intros pre' post' Hs Hl. destruct pre' as [|c' pre']; simpl in *.
      * now subst post'.
      * injection Hs as <- Hs. apply Hleft; [exact Hs|lia].
Qed.

(** [re.search] returns the match at the leftmost position where the
    pattern matches, and nothing when it matches nowhere. *)
Lemma re_search_spec r t :
  match re_search r t with
  | Some cs =>
      exists pre post,
        t = pre +:+ post /\ match_here r (last_char None pre) post = Some cs /\
        forall pre' post', t = pre' +:+ post' ->
          is_Some (match_here r (last_char None pre') post') ->
          (String.length pre <= String.length pre')%nat
  | None =>
      forall pre post, t = pre +:+ post ->
                       match_here r (last_char None pre) post = None
  end.
Proof.
  unfold re_search. destruct (search_from r None t) as [cs|] eqn:E.
  - destruct (search_from_Some _ _ _ _ E) as (pre & post & Ht & Hm & Hleft).
    exists pre, post. repeat split; auto.
    intros pre' post' Ht' [cs' Hs].
    destruct (Nat.le_gt_cases (String.length pre) (String.length pre'))
      as [Hle|Hgt]; [exact Hle|].
    rewrite (Hleft pre' post' Ht' Hgt) in Hs. discriminate.
  - now apply search_from_None.
Qed.

Lemma pair_at_match t pre a b :
  pair_at t pre a b <->
  exists post, t = pre +:+ post /\
    match_here re_pair (last_char None pre) post
      = Some [(2%nat, b); (1%nat, a)].
Proof.
  split.
  - intros (ws1 & ws2 & post & -> & Ha & Hb & Hw1 & Hw2 & Hp & He).
    eexists. split; [reflexivity|]. apply pair_here.
    exists a, ws1, ws2, b, post. repeat split; auto; apply Ha || apply Hb.
  - intros (post & -> & H).
    apply pair_here in H
      as (a' & ws1 & ws2 & b' & post' & -> & Ha & Hb & Hw1 & Hw2 & Hp & He
          & [= <- <-]).
    exists ws1, ws2, post'. repeat split; auto; apply Ha || apply Hb.
Qed.

Lemma token_at_match t pre w :
  token_at t pre w <->
  exists post, t = pre +:+ post /\
    match_here re_six (last_char None pre) post = Some [(1%nat, w)].
Proof.
  split.
  - intros (post & -> & Ha & Hp & He).
    eexists. split; [reflexivity|]. apply six_here.
    exists w, post. repeat split; auto; apply Ha.
  - intros (post & -> & H).
    apply six_here in H as (w' & post' & -> & Ha & Hp & He & [= <-]).
    exists post'. repeat split; auto; apply Ha.
Qed.

Lemma re_search_pair t :
  match re_search re_pair t with
  | Some cs =>
      exists pre a b,
        pair_at t pre a b /\ cs = [(2%nat, b); (1%nat, a)] /\
        forall pre' a' b', pair_at t pre' a' b' ->
                           (String.length pre <= String.length pre')%nat
  | None => forall pre a b, ~ pair_at t pre a b
  end.
Proof.
  pose proof (re_search_spec re_pair t) as H.
  destruct (re_search re_pair t) as [cs|].
  - destruct H as (pre & post & Ht & Hm & Hleft).
    pose proof Hm as Hm'.
    apply pair_here in Hm'
      as (a & ws1 & ws2 & b & post' & _ & _ & _ & _ & _ & _ & _ & ->).
    exists pre, a, b. split; [|split; [reflexivity|]].
    + apply pair_at_match. eauto.
    + intros pre' a' b' (post'' & Ht' & Hm'')%pair_at_match.
      apply (Hleft pre' post'' Ht'). eauto.
  - intros pre a b (post & Ht & Hm)%pair_at_match.
    rewrite (H pre post Ht) in Hm. discriminate.
Qed.

Lemma re_search_six t :
  match re_search re_six t with
  | Some cs =>
      exists pre w,
        token_at t pre w /\ cs = [(1%nat, w)] /\
        forall pre' w', token_at t pre' w' ->
                        (String.length pre <= String.length pre')%nat
  | None => forall pre w, ~ token_at t pre w
  end.
Proof.
  pose proof (re_search_spec re_six t) as H.
  destruct (re_search re_six t) as [cs|].
  - destruct H as (pre & post & Ht & Hm & Hleft).
    pose proof Hm as Hm'.
    apply six_here in Hm' as (w & post' & _ & _ & _ & _ & ->).
    exists pre, w. split; [|split; [reflexivity|]].
    + apply token_at_match. eauto.
    + intros pre' w' (post'' & Ht' & Hm'')%token_at_match.
      apply (Hleft pre' post'' Ht'). eauto.
  - intros pre w (post & Ht & Hm)%token_at_match.
    rewrite (H pre post Ht) in Hm. discriminate.
Qed.

Lemma pair_at_letters t pre a b : pair_at t pre a b -> letters 6 (a +:+ b).
Proof.
  intros (ws1 & ws2 & post & _ & Ha & Hb & _).
  apply (letters_append 3 3); assumption.
Qed.

(** C2 (amended).  The pair pattern needs the slash: when the uppercased
    text holds two three-letter codes separated by a slash with optional
    whitespace around it, as whole words, [extract_symbol] returns the codes
    of the leftmost such pair, joined, with the suffix appended; without such
    a pair it returns the leftmost six-letter word with the suffix; with
    neither it returns nothing. *)
Theorem C2_extract_symbol (sfx text : string) :
  let t := upper text in
  ((exists pre a b, pair_at t pre a b) ->
   exists pre a b,
     pair_at t pre a b /\
     extract_symbol sfx text = Some (a +:+ b +:+ sfx) /\
     forall pre' a' b', pair_at t pre' a' b' ->
                        (String.length pre <= String.length pre')%nat) /\
  (~ (exists pre a b, pair_at t pre a b) ->
   (exists pre w, token_at t pre w) ->
   exists pre w,
     token_at t pre w /\
     extract_symbol sfx text = Some (w +:+ sfx) /\
     forall pre' w', token_at t pre' w' ->
                     (String.length pre <= String.length pre')%nat) /\
  (~ (exists pre a b, pair_at t pre a b) ->
   ~ (exists pre w, token_at t pre w) ->
   extract_symbol sfx text = None).
Proof.
  intros t. unfold extract_symbol. fold t.
  pose proof (re_search_pair t) as Hp. pose proof (re_search_six t) as Hs.
  destruct (re_search re_pair t) as [cs|].
  - destruct Hp as (pre & a & b & Hat & -> & Hleft).
    split; [|split].
    + intros _. exists pre, a, b. split; [exact Hat|]. split; [|exact Hleft].
      simpl. rewrite (normalize_symbol_letters sfx 6)
        by (eapply pair_at_letters; eauto).
      now rewrite append_assoc.
    + intros Hno. exfalso. apply Hno. eauto.
    + intros Hno. exfalso. apply Hno. eauto.
  - split; [|split].
    + intros (pre & a & b & Hat). now apply Hp in Hat.
    + intros _ Hex. destruct (re_search re_six t) as [cs|].
      * destruct Hs as (pre & w & Hat & -> & Hleft).
        exists pre, w. split; [exact Hat|]. split; [|exact Hleft].
        simpl. destruct Hat as (post & _ & Hw & _).
        now rewrite (normalize_symbol_letters sfx 6).
      * destruct Hex as (pre & w & Hat). now apply Hs in Hat.
    + intros _ Hno. destruct (re_search re_six t) as [cs|]; [|reflexivity].
      destruct Hs as (pre & w & Hat & _). exfalso. apply Hno. eauto.
Qed.

Lemma C2_extract_symbol_witness :
  exists pre a b,
    pair_at (upper "buy eur / usd now") pre a b /\
    extract_symbol "-STD" "buy eur / usd now" = Some (a +:+ b +:+ "-STD") /\
    forall pre' a' b', pair_at (upper "buy eur / usd now") pre' a' b' ->
                       (String.length pre <= String.length pre')%nat.
Proof.
  apply (proj1 (C2_extract_symbol "-STD" "buy eur / usd now")).
  exists "BUY ", "EUR", "USD", " ", " ", " NOW".
  repeat split; reflexivity.
Defined.

(** C2, as stated, fails: without the slash two codes separated by spaces
    are not found, and there is no six-letter word to fall back on. *)
Lemma C2_counterexample :
  (exists a ws b,
     "CAD CHF" = a +:+ ws +:+ b /\ letters 3 a /\ letters 3 b /\
     all_chars is_space ws = true) /\
  extract_symbol "-STD" "CAD CHF" = None.
Proof.
  split; [|vm_compute; reflexivity].
  exists "CAD", " ", "CHF". repeat split; reflexivity.
Qed.

(** A symbol that [extract_symbol] returns is never empty. *)
Lemma extract_symbol_nonempty sfx text sym :
  extract_symbol sfx text = Some sym -> nonempty sym = true.
Proof.
  unfold extract_symbol.
  pose proof (re_search_pair (upper text)) as Hp.
  pose proof (re_search_six (upper text)) as Hs.
  destruct (re_search re_pair (upper text)) as [cs|].
  - destruct Hp as (pre & a & b & Hat & -> & _). intros [= <-]. simpl.
    rewrite (normalize_symbol_letters sfx 6)
      by (eapply pair_at_letters; eauto).
    destruct Hat as (_ & _ & _ & _ & Ha & _).
    apply (letters_nonempty 2) in Ha. now destruct a.
  - destruct (re_search re_six (upper text)) as [cs|]; [|discriminate].
    destruct Hs as (pre & w & Hat & -> & _). intros [= <-]. simpl.
    destruct Hat as (post & _ & Hw & _).
    rewrite (normalize_symbol_letters sfx 6) by exact Hw.
    apply (letters_nonempty 5) in Hw. now destruct w.
Qed.

(** ** Normalised text *)

Lemma upper_char_facts c :
  upper (upper_char c) = upper_char c /\
  upper (if Ascii.eqb c "," then "." else String c "")
    = replace "," "." (upper_char c).
Proof.
  destruct c as [[|] [|] [|] [|] [|] [|] [|] [|]]; vm_compute; split;
    reflexivity.
Qed.

Lemma upper_append a b : upper (a +:+ b) = upper a +:+ upper b.
Proof.
  induction a as [|c a IH]; simpl; [reflexivity|].
  now rewrite IH, append_assoc.
Qed.

Lemma replace_append old new a b :
  replace old new (a +:+ b) = replace old new a +:+ replace old new b.
Proof.
  induction a as [|c a IH]; simpl; [reflexivity|].
  destruct (Ascii.eqb c old); simpl; rewrite IH; [|reflexivity].
  now rewrite append_assoc.
Qed.

Lemma upper_idem s : upper (upper s) = upper s.
Proof.
  induction s as [|c s IH]; simpl; [reflexivity|].
  rewrite upper_append, IH. now destruct (upper_char_facts c) as [-> _].
Qed.

Lemma upper_replace_comma s :
  upper (replace "," "." s) = replace "," "." (upper s).
Proof.
  induction s as [|c s IH]; simpl; [reflexivity|].
  rewrite replace_append, <- IH.
  destruct (upper_char_facts c) as [_ <-].
  destruct (Ascii.eqb c ","); simpl; now rewrite ?append_nil_r.
Qed.

Lemma replace_comma_idem s :
  replace "," "." (replace "," "." s) = replace "," "." s.
Proof.
  induction s as [|c s IH]; simpl; [reflexivity|].
  destruct (Ascii.eqb c ",") eqn:E; simpl; rewrite ?E, IH; reflexivity.
Qed.

Lemma norm_idem s : norm (norm s) = norm s.
Proof.
  unfold norm.
  now rewrite upper_replace_comma, upper_idem, replace_comma_idem.
Qed.

Lemma normalized_norm msg t : normalized msg = Some t -> norm t = t.
Proof.
  unfold normalized. destruct (message msg) as [body|]; [|discriminate].
  destruct (nonempty body); simpl; [|discriminate].
  destruct (nonempty (strip body)); simpl; [|discriminate].
  intros [= <-]. apply norm_idem.
Qed.

(** The cancel keyword is found exactly when ANNULLARE occurs as a whole
    word. *)
Lemma has_cancel_keyword_iff t :
  has_cancel_keyword t <->
  exists pre post,
    t = pre +:+ "ANNULLARE" +:+ post /\
    word_at (last_char None pre) = false /\
    word_at (head_char post) = false.
Proof.
  assert (Hhere : forall prev s cs,
    match_here re_cancel prev s = Some cs <->
    exists post, s = "ANNULLARE" +:+ post /\ word_at prev = false /\
                 word_at (head_char post) = false /\ cs = []).
  { intros prev s cs. unfold match_here, re_cancel. cbn [Seq].
    rewrite m_wordb. split.
    - intros [Hb (post & -> & [He H]%m_wordb)%m_lit].
      simpl in *. injection H as <-. exists post.
      repeat match goal with |- _ /\ _ => split end; auto.
      + now destruct (word_at prev).
      + now destruct (word_at (head_char post)).
    - intros (post & -> & Hp & He & ->). split.
      + simpl. now rewrite Hp.
      + apply m_lit. exists post. split; [reflexivity|].
        apply m_wordb. simpl. now rewrite He. }
  unfold has_cancel_keyword.
  pose proof (re_search_spec re_cancel t) as H. split.
  - intros [cs Hs]. rewrite Hs in H.
    destruct H as (pre & post & -> & Hm & _).
    apply Hhere in Hm as (post' & -> & Hp & He & _). eauto.
  - intros (pre & post & -> & Hp & He).
    destruct (re_search re_cancel _) as [cs|]; [eauto|].
    specialize (H pre ("ANNULLARE" +:+ post) eq_refl).
    assert (match_here re_cancel (last_char None pre) ("ANNULLARE" +:+ post)
            = Some []) as E by (apply Hhere; eauto).
    congruence.
Qed.

Lemma parse_cancel_unresolved sfx t :
  extract_pending_type (norm t) = None \/ extract_side (norm t) = None \/
  extract_symbol sfx (norm t) = None ->
  parse_cancel sfx t = None.
Proof.
  intros H. unfold parse_cancel. fold (norm t).
  destruct (re_search re_cancel (norm t)); [|reflexivity].
  destruct H as [-> | [-> | ->]]; try reflexivity.
  - now destruct (extract_pending_type (norm t)).
  - now destruct (extract_pending_type (norm t)), (extract_side (norm t)).
Qed.

(** C3 (amended).  The update phrase is the Italian template
    MODIFICARE IL PREZZO DI INGRESSO DA x A y.  A message that matches it,
    is not a cancel and has a resolvable symbol yields an UPDATE Command with
    entry y and old entry x, pending type defaulting to SELL_LIMIT and side
    defaulting to SELL when "SELL" is present and BUY otherwise; without a
    resolvable symbol it yields no Command.  The template message yields
    UPDATE SELL_LIMIT SELL GBPUSD+suffix, entry 1.33100, old entry 1.33300. *)
Theorem C3_update_command (sfx : string) :
  (forall msg t old_e new_e,
     normalized msg = Some t ->
     parse_update t = Some (old_e, new_e) ->
     (parse_cancel sfx t = None ->
      forall sym, extract_symbol sfx t = Some sym ->
        parse_message sfx msg =
          Some {| cmd_id := "tg_" +:+ str (msg_id msg); action := UPDATE;
                  symbol := sym;
                  type := default SELL_LIMIT (extract_pending_type t);
                  side := default (if str_in "SELL" t then SELL else BUY)
                                  (extract_side t);
                  entry := new_e; sl := 0; tp := 0; old_entry := old_e;
                  order_id := ""; meta := Some (msg_id msg, "update") |}) /\
     (extract_symbol sfx t = None -> parse_message sfx msg = None)) /\
  parse_message sfx
    (sample 1 "(SELL LIMIT GBP/USD) - MODIFICARE IL PREZZO DI INGRESSO DA 1.33300 A 1.33100")
  = Some {| cmd_id := "tg_1"; action := UPDATE; symbol := "GBPUSD" +:+ sfx;
            type := SELL_LIMIT; side := SELL;
            entry := float "1.33100"; sl := 0; tp := 0;
            old_entry := float "1.33300";
            order_id := ""; meta := Some (1, "update") |}.
Proof.
  split; [|vm_compute; reflexivity].
  intros msg t old_e new_e Hn Hu. unfold parse_message, parse_text.
  rewrite Hn. split.
  - intros Hc sym Hs. rewrite Hc, Hu, Hs.
    now rewrite (extract_symbol_nonempty _ _ _ Hs).
  - intros Hs.
    rewrite parse_cancel_unresolved
      by (rewrite (normalized_norm _ _ Hn); auto).
    now rewrite Hu, Hs.
Qed.

Lemma C3_update_witness :
  exists c,
    parse_message "-STD"
      (sample 9 "eur/usd: modificare il prezzo di ingresso da 1,2 a 1,3")
      = Some c /\
    action c = UPDATE /\ type c = SELL_LIMIT /\ side c = BUY /\
    symbol c = "EURUSD-STD" /\
    entry c = float "1.3" /\ old_entry c = float "1.2".
Proof.
  eexists. split.
  - refine (proj1 (proj1 (C3_update_command "-STD") _
              "EUR/USD: MODIFICARE IL PREZZO DI INGRESSO DA 1.2 A 1.3"
              (float "1.2") (float "1.3") _ _) _ "EURUSD-STD" _);
      vm_compute; reflexivity.
  - vm_compute. repeat split.
Defined.

(** C3, as stated, fails on its own example: the English wording is not the
    update phrase, so the message is taken for a pending open without entry
    price and dropped. *)
Lemma C3_counterexample :
  parse_message "-STD"
    (sample 1 "(SELL LIMIT GBP/USD) - MODIFY ENTRY PRICE FROM 1.33300 TO 1.33100")
  = None.
Proof. vm_compute. reflexivity. Qed.

(** C8 (amended).  A message that is neither a cancel nor an update, has a
    resolvable symbol and side, and shows the direct-market phrasing, or has
    no pending type and contains the at-market phrase, yields an OPEN
    Command of type MARKET with entry zero and the labelled stop-loss and
    take-profit.  The message BUY DIRETTA A MERCATO CAD/CHF yields OPEN
    MARKET BUY CADCHF+suffix with entry 0. *)
Theorem C8_market_open (sfx : string) :
  (forall msg t sym sd,
     normalized msg = Some t ->
     parse_cancel sfx t = None -> parse_update t = None ->
     extract_symbol sfx t = Some sym -> extract_side t = Some sd ->
     is_market_direct t = true \/
       (extract_pending_type t = None /\ str_in "A MERCATO" t = true) ->
     parse_message sfx msg =
       Some {| cmd_id := "tg_" +:+ str (msg_id msg); action := OPEN;
               symbol := sym; type := MARKET; side := sd;
               entry := 0; sl := v_sl (extract_entry_sl_tp t);
               tp := v_tp (extract_entry_sl_tp t); old_entry := 0;
               order_id := "";
               meta := Some (msg_id msg, "market_direct") |}) /\
  (forall t, is_market_direct t =
             (str_in "DIRETTA" (upper t) && str_in "MERCATO" (upper t))
             || str_in "ESECUZIONE A MERCATO" (upper t)) /\
  parse_message sfx (sample 1 "BUY DIRETTA A MERCATO CAD/CHF")
  = Some {| cmd_id := "tg_1"; action := OPEN; symbol := "CADCHF" +:+ sfx;
            type := MARKET; side := BUY;
            entry := 0; sl := 0; tp := 0; old_entry := 0;
            order_id := ""; meta := Some (1, "market_direct") |}.
Proof.
  split; [|split; [reflexivity|vm_compute; reflexivity]].
  intros msg t sym sd Hn Hc Hu Hs Hd Hm. unfold parse_message, parse_text.
  rewrite Hn, Hc, Hu, Hs, Hd, (extract_symbol_nonempty _ _ _ Hs). simpl.
  destruct Hm as [-> | [-> ->]]; [reflexivity|].
  now rewrite orb_true_r.
Qed.

Lemma C8_market_open_witness :
  exists c,
    parse_message "-STD" (sample 3 "SELL EUR/USD A MERCATO, STOP LOSS 1.1")
      = Some c /\
    type c = MARKET /\ sl c = float "1.1".
Proof.
  eexists. split.
  - refine (proj1 (C8_market_open "-STD") _
              "SELL EUR/USD A MERCATO. STOP LOSS 1.1" "EURUSD-STD" SELL
              _ _ _ _ _ _); try (vm_compute; reflexivity).
    right. split; vm_compute; reflexivity.
  - split; vm_compute; reflexivity.
Defined.

(** C8, as stated, fails: the earlier rules win.  A cancel that mentions
    market execution has a symbol, a side and the direct-market phrasing,
    and is a CANCEL. *)
Lemma C8_counterexample :
  exists t sym sd c,
    normalized (sample 1 "ANNULLARE BUY LIMIT CAD/CHF - ESECUZIONE A MERCATO")
      = Some t /\
    extract_symbol "-STD" t = Some sym /\ extract_side t = Some sd /\
    is_market_direct t = true /\
    parse_message "-STD"
      (sample 1 "ANNULLARE BUY LIMIT CAD/CHF - ESECUZIONE A MERCATO") = Some c /\
    action c = CANCEL.
Proof.
  do 4 eexists. split; [vm_compute; reflexivity|].
  split; [vm_compute; reflexivity|]. split; [vm_compute; reflexivity|].
  split; [vm_compute; reflexivity|]. split; [vm_compute; reflexivity|].
  reflexivity.
Qed.

Lemma space_not_word c : is_space c = true -> is_word c = false.
Proof.
  destruct c as [[|] [|] [|] [|] [|] [|] [|] [|]];
    vm_compute; intros H; try discriminate H; reflexivity.
Qed.

Lemma m_plus_sound p R (k : cont) prev s cs res :
  rmatch (Cat (Plus p) R) k prev s cs = Some res ->
  exists ws s1, s = ws +:+ s1 /\ nonempty ws = true /\
                all_chars p ws = true /\
                p <$> last_char prev ws = Some true /\
                p <$> head_char ws = Some true /\
                rmatch R k (last_char prev ws) s1 cs = Some res.
Proof.
  unfold Plus. cbn [rmatch]. destruct s as [|c s]; [discriminate|].
  destruct (p c) eqn:Hc; [|discriminate]. intros H.
  change (rmatch (Cat (Star p) R) k (Some c) s cs = Some res) in H.
  apply m_star_sound in H as (ws & s1 & -> & Hw & H).
  exists (String c ws), s1. simpl. rewrite Hc, Hw.
  repeat match goal with |- _ /\ _ => split end; auto.
  clear H. revert c Hc. induction ws as [|c' ws IH]; intros c Hc; simpl.
  - now rewrite Hc.
  - simpl in Hw. apply andb_true_iff in Hw as [Hc' Hw]. now apply IH.
Qed.

Lemma normalized_upper msg t : normalized msg = Some t -> upper t = t.
Proof.
  unfold normalized. destruct (message msg) as [body|]; [|discriminate].
  destruct (nonempty body); simpl; [|discriminate].
  destruct (nonempty (strip body)); simpl; [|discriminate].
  intros [= <-]. now rewrite upper_replace_comma, upper_idem.
Qed.

(** A text that matches the update phrase holds the word PREZZO, so a symbol
    always resolves for it: the currency pair when there is one, otherwise
    the leftmost six-letter word. *)
Lemma update_phrase_resolves_symbol sfx msg t :
  normalized msg = Some t -> is_Some (parse_update t) ->
  is_Some (extract_symbol sfx t).
Proof.
  intros Hn [u Hu]. unfold parse_update in Hu. fold (norm t) in Hu.
  rewrite (normalized_norm _ _ Hn) in Hu.
  pose proof (re_search_spec re_update t) as Hsp.
  destruct (re_search re_update t) as [cs|]; [|discriminate].
  destruct Hsp as (pre & post & Ht & Hm & _).
  unfold match_here, re_update in Hm. cbn [Seq] in Hm.
  apply m_lit in Hm as (s1 & -> & Hm).
  apply m_plus_sound in Hm as (ws1 & s2 & -> & _ & _ & _ & _ & Hm).
  apply m_lit in Hm as (s3 & -> & Hm).
  apply m_plus_sound in Hm as (ws2 & s4 & -> & _ & _ & Hl2 & _ & Hm).
  apply m_lit in Hm as (s5 & -> & Hm).
  apply m_plus_sound in Hm as (ws3 & s6 & -> & _ & _ & _ & Hh3 & _).
  assert (Htok : token_at t (pre +:+ "MODIFICARE" +:+ ws1 +:+ "IL" +:+ ws2)
                          "PREZZO").
  { exists (ws3 +:+ s6). split; [|split; [split; reflexivity|split]].
    - rewrite Ht, !append_assoc. reflexivity.
    - rewrite <- !append_assoc, last_char_append.
      rewrite <- (last_char_append _ _ "IL") in Hl2.
      rewrite <- !last_char_append in Hl2. rewrite <- !last_char_append.
      rewrite !append_assoc in *.
      destruct (last_char None _) as [c|]; [|discriminate].
      simpl in *. injection Hl2 as Hc. now apply space_not_word.
    - destruct ws3 as [|c ws3]; [discriminate|]. simpl in *.
      injection Hh3 as Hc. now apply space_not_word. }
  unfold extract_symbol. rewrite (normalized_upper _ _ Hn).
  pose proof (re_search_six t) as Hs.
  destruct (re_search re_pair t); [eauto|].
  destruct (re_search re_six t); [eauto|]. now apply Hs in Htok.
Qed.

(** C1 (amended).  A message with the cancel keyword for which the pending
    type, the side or the symbol does not resolve is not classified as a
    cancel; it falls through to the later rules, which decide alone.  When
    the update phrase matches, the symbol resolves and the message yields
    the UPDATE Command.  Otherwise, when symbol and side resolve and the
    market test holds, it yields the OPEN Command of type MARKET.  In every
    other case (no symbol, no side, or no market phrasing) it yields no
    Command.  So it never yields a CANCEL or a pending OPEN. *)
Theorem C1_unresolved_cancel_falls_through
    (sfx : string) (msg : Message) (t : string) :
  normalized msg = Some t ->
  has_cancel_keyword t ->
  extract_pending_type t = None \/ extract_side t = None \/
    extract_symbol sfx t = None ->
  parse_cancel sfx t = None /\
  (forall old_e new_e,
     parse_update t = Some (old_e, new_e) ->
     exists sym,
       extract_symbol sfx t = Some sym /\
       parse_message sfx msg =
         Some {| cmd_id := "tg_" +:+ str (msg_id msg); action := UPDATE;
                 symbol := sym;
                 type := default SELL_LIMIT (extract_pending_type t);
                 side := default (if str_in "SELL" t then SELL else BUY)
                                 (extract_side t);
                 entry := new_e; sl := 0; tp := 0; old_entry := old_e;
                 order_id := ""; meta := Some (msg_id msg, "update") |}) /\
  (parse_update t = None ->
   forall sym sd,
     extract_symbol sfx t = Some sym -> extract_side t = Some sd ->
     market_open t = true ->
     parse_message sfx msg =
       Some {| cmd_id := "tg_" +:+ str (msg_id msg); action := OPEN;
               symbol := sym; type := MARKET; side := sd;
               entry := 0; sl := v_sl (extract_entry_sl_tp t);
               tp := v_tp (extract_entry_sl_tp t); old_entry := 0;
               order_id := "";
               meta := Some (msg_id msg, "market_direct") |}) /\
  (parse_update t = None ->
   extract_symbol sfx t = None \/ extract_side t = None \/
     market_open t = false ->
   parse_message sfx msg = None).
Proof.
  intros Hn _ Hun.
  assert (Hc : parse_cancel sfx t = None).
  { apply parse_cancel_unresolved. now rewrite (normalized_norm _ _ Hn). }
  split; [exact Hc|]. unfold parse_message, parse_text. rewrite Hn, Hc.
  unfold market_open. split; [|split].
  - intros old_e new_e Hu.
    destruct (update_phrase_resolves_symbol sfx msg t Hn) as [sym Hs];
      [rewrite Hu; eauto|].
    exists sym. split; [exact Hs|]. rewrite Hu, Hs.
    now rewrite (extract_symbol_nonempty _ _ _ Hs).
  - intros Hu sym sd Hs Hd Hm.
    rewrite Hu, Hs, Hd, (extract_symbol_nonempty _ _ _ Hs). simpl.
    now rewrite Hm.
  - intros Hu Hno. rewrite Hu.
    destruct (extract_symbol sfx t) as [sym|]; [|reflexivity].
    destruct (nonempty sym); simpl; [|reflexivity].
    destruct (extract_side t) as [sd|]; [|reflexivity].
    destruct Hno as [Hy | [Hd | Hm]]; try discriminate. rewrite Hm.
    destruct Hun as [Hp | [Hd | Hy]]; try discriminate. now rewrite Hp.
Qed.

Lemma C1_unresolved_cancel_witness :
  (exists c,
     parse_message "-STD"
       (sample 1 "ANNULLARE EUR/USD: MODIFICARE IL PREZZO DI INGRESSO DA 1.2 A 1.3")
     = Some c /\
     action c = UPDATE /\ symbol c = "EURUSD-STD" /\ type c = SELL_LIMIT) /\
  (exists c,
     parse_message "-STD" (sample 2 "ANNULLARE SELL A MERCATO CAD/CHF") = Some c /\
     action c = OPEN /\ type c = MARKET /\ side c = SELL) /\
  parse_message "-STD" (sample 3 "ANNULLARE A MERCATO CAD/CHF") = None /\
  parse_message "-STD" (sample 4 "ANNULLARE BUY LIMIT") = None.
Proof.
  split; [|split; [|split]].
  - destruct (proj1 (proj2 (C1_unresolved_cancel_falls_through "-STD"
                (sample 1 "ANNULLARE EUR/USD: MODIFICARE IL PREZZO DI INGRESSO DA 1.2 A 1.3")
                "ANNULLARE EUR/USD: MODIFICARE IL PREZZO DI INGRESSO DA 1.2 A 1.3"
                eq_refl
                ltac:(eexists; vm_compute; reflexivity)
                ltac:(left; vm_compute; reflexivity)))
              (float "1.2") (float "1.3") ltac:(vm_compute; reflexivity))
      as (sym & Hs & Hp).
    eexists. split; [exact Hp|].
    assert (sym = "EURUSD-STD") as ->
      by (vm_compute in Hs; now injection Hs as <-).
    split; [reflexivity|]. split; [reflexivity|]. vm_compute. reflexivity.
  - eexists. split.
    + refine (proj1 (proj2 (proj2 (C1_unresolved_cancel_falls_through "-STD"
                (sample 2 "ANNULLARE SELL A MERCATO CAD/CHF")
                "ANNULLARE SELL A MERCATO CAD/CHF" eq_refl _ _)))
                _ "CADCHF-STD" SELL _ _ _);
        try (vm_compute; reflexivity).
      * eexists. vm_compute. reflexivity.
      * left. vm_compute. reflexivity.
    + repeat split.
  - refine (proj2 (proj2 (proj2 (C1_unresolved_cancel_falls_through "-STD"
              (sample 3 "ANNULLARE A MERCATO CAD/CHF")
              "ANNULLARE A MERCATO CAD/CHF" eq_refl _ _))) _ _).
    + eexists. vm_compute. reflexivity.
    + left. vm_compute. reflexivity.
    + vm_compute. reflexivity.
    + right. left. vm_compute. reflexivity.
  - refine (proj2 (proj2 (proj2 (C1_unresolved_cancel_falls_through "-STD"
              (sample 4 "ANNULLARE BUY LIMIT")
              "ANNULLARE BUY LIMIT" eq_refl _ _))) _ _).
    + eexists. vm_compute. reflexivity.
    + right. right. vm_compute. reflexivity.
    + vm_compute. reflexivity.
    + left. vm_compute. reflexivity.
Defined.

(** C1, as stated, fails: the keyword is present, the pending type does not
    resolve, and the message is classified as a market open. *)
Lemma C1_counterexample :
  exists t c,
    normalized (sample 1 "ANNULLARE BUY DIRETTA A MERCATO CAD/CHF") = Some t /\
    has_cancel_keyword t /\ extract_pending_type t = None /\
    parse_message "-STD" (sample 1 "ANNULLARE BUY DIRETTA A MERCATO CAD/CHF")
      = Some c /\
    action c = OPEN /\ type c = MARKET /\ symbol c = "CADCHF-STD".
Proof.
  eexists. eexists. split; [vm_compute; reflexivity|].
  split; [eexists; vm_compute; reflexivity|].
  split; [vm_compute; reflexivity|].
  split; [vm_compute; reflexivity|]. repeat split.
Qed.

(** * Further properties of the parser *)

(** ** Case and surrounding whitespace *)

Lemma upper_char_space c :
  if is_space c then upper_char c = String c ""
  else nonempty (upper_char c) = true /\ no_space (upper_char c) = true.
Proof.
  destruct c as [[|] [|] [|] [|] [|] [|] [|] [|]]; vm_compute;
    try split; reflexivity.
Qed.

Lemma upper_char_nbsp c :
  upper (if Ascii.eqb c (ascii_of_N 160) then " " else String c "")
  = replace (ascii_of_N 160) " " (upper_char c).
Proof.
  destruct c as [[|] [|] [|] [|] [|] [|] [|] [|]]; vm_compute; reflexivity.
Qed.

Lemma nonempty_append a b : nonempty (a +:+ b) = nonempty a || nonempty b.
Proof. now destruct a. Qed.

Lemma nonempty_upper s : nonempty (upper s) = nonempty s.
Proof.
  destruct s as [|c s]; [reflexivity|]. simpl. rewrite nonempty_append.
  pose proof (upper_char_space c) as H.
  destruct (is_space c); [now rewrite H|]. now destruct H as [-> _].
Qed.

Lemma lstrip_no_space a b :
  nonempty a = true -> no_space a = true -> lstrip (a +:+ b) = a +:+ b.
Proof.
  destruct a as [|c a]; [discriminate|]. intros _. unfold no_space. simpl.
  intros [Hc _]%andb_true_iff. apply negb_true_iff in Hc. now rewrite Hc.
Qed.

Lemma lstrip_upper s : lstrip (upper s) = upper (lstrip s).
Proof.
  induction s as [|c s IH]; [reflexivity|]. simpl.
  pose proof (upper_char_space c) as H. destruct (is_space c) eqn:Hc.
  - rewrite H. simpl. now rewrite Hc.
  - destruct H as [Hn Hs]. now rewrite lstrip_no_space.
Qed.

Lemma rstrip_append_blank x y : rstrip y = "" -> rstrip (x +:+ y) = rstrip x.
Proof.
  intros Hy. induction x as [|c x IH]; simpl; [exact Hy|]. now rewrite IH.
Qed.

Lemma rstrip_append_nonblank x y :
  nonempty (rstrip y) = true -> rstrip (x +:+ y) = x +:+ rstrip y.
Proof.
  intros Hy. induction x as [|c x IH]; simpl; [reflexivity|]. rewrite IH.
  destruct (x +:+ rstrip y) eqn:E; [|reflexivity].
  apply (f_equal nonempty) in E. rewrite nonempty_append, Hy, orb_true_r in E.
  discriminate.
Qed.

Lemma rstrip_no_space s : no_space s = true -> rstrip s = s.
Proof.
  unfold no_space. induction s as [|c s IH]; [reflexivity|]. simpl.
  intros [Hc Hs]%andb_true_iff. apply negb_true_iff in Hc.
  rewrite IH by exact Hs. rewrite Hc. now destruct s.
Qed.

Lemma rstrip_all_space s : all_chars is_space s = true -> rstrip s = "".
Proof.
  induction s as [|c s IH]; [reflexivity|]. simpl.
  intros [Hc Hs]%andb_true_iff. now rewrite IH, Hc.
Qed.

Lemma rstrip_upper s : rstrip (upper s) = upper (rstrip s).
Proof.
  induction s as [|c s IH]; [reflexivity|]. simpl.
  pose proof (upper_char_space c) as H.
  destruct (rstrip s) as [|c' r'] eqn:E.
  - rewrite rstrip_append_blank by exact IH.
    destruct (is_space c) eqn:Hc.
    + rewrite H. simpl. now rewrite Hc.
    + destruct H as [_ Hs]. rewrite rstrip_no_space by exact Hs.
      simpl. now rewrite append_nil_r.
  - rewrite rstrip_append_nonblank.
    + now rewrite IH.
    + rewrite IH, nonempty_upper. reflexivity.
Qed.

Lemma strip_upper s : strip (upper s) = upper (strip s).
Proof. unfold strip. now rewrite lstrip_upper, rstrip_upper. Qed.

Lemma upper_replace_nbsp s :
  upper (replace (ascii_of_N 160) " " s)
  = replace (ascii_of_N 160) " " (upper s).
Proof.
  induction s as [|c s IH]; [reflexivity|]. cbn [replace upper].
  rewrite replace_append, <- IH, <- upper_char_nbsp.
  destruct (Ascii.eqb c (ascii_of_N 160)); simpl; now rewrite ?append_nil_r.
Qed.

Lemma normalized_upper_body id body r r' :
  normalized {| msg_id := id; message := Some (upper body);
                reply_to_msg_id := r |}
  = normalized {| msg_id := id; message := Some body;
                  reply_to_msg_id := r' |}.
Proof.
  unfold normalized. simpl.
  rewrite nonempty_upper, strip_upper, nonempty_upper.
  now rewrite <- upper_replace_nbsp, upper_idem.
Qed.

(** X1. Classification does not depend on the case of the text, nor on
    whether the message is a reply: a message and its uppercased copy yield
    the same result. *)
Theorem X1_parse_message_case_insensitive (sfx : string) (id : Z)
    (body : string) (r r' : option Z) :
  parse_message sfx {| msg_id := id; message := Some (upper body);
                       reply_to_msg_id := r |}
  = parse_message sfx {| msg_id := id; message := Some body;
                         reply_to_msg_id := r' |}.
Proof.
  unfold parse_message. now rewrite (normalized_upper_body id body r r').
Qed.

Lemma lstrip_append_space ws s :
  all_chars is_space ws = true -> lstrip (ws +:+ s) = lstrip s.
Proof.
  induction ws as [|c ws IH]; [reflexivity|]. simpl.
  intros [Hc Hs]%andb_true_iff. rewrite Hc. auto.
Qed.

Lemma lstrip_append_r s ws :
  all_chars is_space ws = true ->
  lstrip (s +:+ ws) = if nonempty (lstrip s) then lstrip s +:+ ws else "".
Proof.
  intros Hw. induction s as [|c s IH]; simpl.
  - now apply lstrip_all_space.
  - destruct (is_space c); [exact IH|reflexivity].
Qed.

Lemma strip_padding ws s ws' :
  all_chars is_space ws = true -> all_chars is_space ws' = true ->
  strip (ws +:+ s +:+ ws') = strip s.
Proof.
  intros Hw Hw'. unfold strip.
  rewrite lstrip_append_space by exact Hw.
  rewrite lstrip_append_r by exact Hw'.
  destruct (lstrip s) as [|c r] eqn:E; [reflexivity|]. simpl nonempty.
  cbv iota. apply rstrip_append_blank. now apply rstrip_all_space.
Qed.

(** X2. Whitespace around the body is ignored: padding the text with
    whitespace on either side does not change the result. *)
Theorem X2_parse_message_ignores_padding (sfx : string) (id : Z)
    (ws body ws' : string) (r : option Z) :
  all_chars is_space ws = true -> all_chars is_space ws' = true ->
  parse_message sfx {| msg_id := id; message := Some (ws +:+ body +:+ ws');
                       reply_to_msg_id := r |}
  = parse_message sfx {| msg_id := id; message := Some body;
                         reply_to_msg_id := r |}.
Proof.
  intros Hw Hw'. unfold parse_message, normalized. simpl.
  rewrite (strip_padding ws body ws' Hw Hw').
  destruct (nonempty (ws +:+ body +:+ ws')) eqn:E1, (nonempty body) eqn:E2;
    simpl; try reflexivity.
  - destruct body; [|discriminate]. simpl. reflexivity.
  - destruct body; [discriminate|]. destruct ws; discriminate.
Qed.

Lemma X2_parse_message_ignores_padding_witness :
  parse_message "-STD"
    {| msg_id := 4; message := Some ("  " +:+ "BUY DIRETTA A MERCATO CAD/CHF"
                                     +:+ String (ascii_of_N 10) " ");
       reply_to_msg_id := None |}
  = parse_message "-STD"
    {| msg_id := 4; message := Some "BUY DIRETTA A MERCATO CAD/CHF";
       reply_to_msg_id := None |}.
Proof.
  apply (X2_parse_message_ignores_padding "-STD" 4); vm_compute; reflexivity.
Defined.

(** ** Prices *)














Lemma parse_cancel_fields sfx t c :
  parse_cancel sfx t = Some c ->
  has_cancel_keyword (norm t) /\
  extract_pending_type (norm t) = Some (c_type c) /\
  extract_side (norm t) = Some (c_side c) /\
  extract_symbol sfx (norm t) = Some (c_symbol c) /\
  c_entry c = first_price re_paren (norm t).
Proof.
  unfold parse_cancel, has_cancel_keyword. fold (norm t).
  destruct (re_search re_cancel (norm t)); [|discriminate].
  destruct (extract_pending_type (norm t)); [|discriminate].
  destruct (extract_side (norm t)); [|discriminate].
  destruct (extract_symbol sfx (norm t)) as [sy|]; [|discriminate].
  destruct (nonempty sy); [|discriminate]. intros [= <-]. simpl. eauto 10.
Qed.



(** ** The shape of a Command *)

Lemma extract_symbol_shape sfx text sym :
  extract_symbol sfx text = Some sym ->
  exists w, letters 6 w /\ sym = w +:+ sfx.
Proof.
  unfold extract_symbol.
  pose proof (re_search_pair (upper text)) as Hp.
  pose proof (re_search_six (upper text)) as Hs.
  destruct (re_search re_pair (upper text)) as [cs|].
  - destruct Hp as (pre & a & b & Hat & -> & _). intros [= <-]. simpl.
    exists (a +:+ b). split; [eapply pair_at_letters; eauto|].
    apply (normalize_symbol_letters sfx 6). eapply pair_at_letters; eauto.
  - destruct (re_search re_six (upper text)) as [cs|]; [|discriminate].
    destruct Hs as (pre & w & (post & _ & Hw & _) & -> & _).
    intros [= <-]. simpl. exists w. split; [exact Hw|].
    now apply (normalize_symbol_letters sfx 6).
Qed.

Lemma pending_type_not_market text pt :
  extract_pending_type text = Some pt -> pt <> MARKET.
Proof.
  unfold extract_pending_type.
  repeat match goal with |- context [if ?b then _ else _] => destruct b end;
    intros [= <-]; discriminate.
Qed.

(** X4. The symbol of every Command is six capital letters followed by the
    configured suffix. *)
Theorem X4_command_symbol_shape (sfx : string) (msg : Message) (c : Command) :
  parse_message sfx msg = Some c ->
  exists w, letters 6 w /\ symbol c = w +:+ sfx.
Proof.
  unfold parse_message. destruct (normalized msg) as [t|]; [|discriminate].
  unfold parse_text.
  destruct (parse_cancel sfx t) as [cc|] eqn:Hc.
  - intros [= <-]. simpl.
    apply parse_cancel_fields in Hc as (_ & _ & _ & Hs & _).
    eapply extract_symbol_shape; eauto.
  - destruct (extract_symbol sfx t) as [sym|] eqn:Hs.
    + apply extract_symbol_shape in Hs. intros H.
      case_parse H; injection H as <-; exact Hs.
    + intros H. case_parse H.
Qed.

Lemma X4_command_symbol_shape_witness :
  exists c w, parse_message "-STD" sample_open = Some c /\
              letters 6 w /\ symbol c = w +:+ "-STD".
Proof.
  eexists.
  destruct (X4_command_symbol_shape "-STD" sample_open _
              ltac:(vm_compute; reflexivity)) as (w & Hw & Hs).
  exists w. split; [vm_compute; reflexivity|]. split; [exact Hw|exact Hs].
Defined.

(** X5. Every Command is identified by its message: its id is "tg_" followed
    by the message id, its order id is still empty, and its annotation holds
    the message id and the kind that goes with its action and order type. *)
Theorem X5_command_identity (sfx : string) (msg : Message) (c : Command) :
  parse_message sfx msg = Some c ->
  cmd_id c = "tg_" +:+ str (msg_id msg) /\ order_id c = "" /\
  meta c = Some (msg_id msg, kind_of (action c) (type c)).
Proof.
  unfold parse_message. destruct (normalized msg) as [t|]; [|discriminate].
  unfold parse_text. intros H.
  destruct (extract_pending_type t) as [pt|] eqn:Hp.
  - pose proof (pending_type_not_market _ _ Hp) as Hm.
    case_parse H; injection H as <-; simpl; repeat split;
      destruct pt; try reflexivity; congruence.
  - case_parse H; injection H as <-; simpl; repeat split.
Qed.

Lemma X5_command_identity_witness :
  exists c, parse_message "-STD" sample_cancel = Some c /\
            cmd_id c = "tg_7" /\ meta c = Some (7, "cancel").
Proof.
  eexists. split; [vm_compute; reflexivity|].
  destruct (X5_command_identity "-STD" sample_cancel _
              ltac:(vm_compute; reflexivity)) as (H1 & _ & H3).
  split; [exact H1|exact H3].
Defined.

(** X6. Which fields an action fills: a CANCEL or UPDATE never has type
    MARKET nor a stop-loss or take-profit, only an UPDATE has an old entry,
    and a MARKET open has entry zero. *)
Theorem X6_command_fields_by_action (sfx : string) (msg : Message)
    (c : Command) :
  parse_message sfx msg = Some c ->
  match action c with
  | CANCEL => type c <> MARKET /\ sl c = 0%F /\ tp c = 0%F /\ old_entry c = 0%F
  | UPDATE => type c <> MARKET /\ sl c = 0%F /\ tp c = 0%F
  | OPEN => old_entry c = 0%F /\ (type c = MARKET -> entry c = 0%F)
  end.
Proof.
  unfold parse_message. destruct (normalized msg) as [t|]; [|discriminate].
  unfold parse_text.
  destruct (parse_cancel sfx t) as [cc|] eqn:Hc.
  - intros [= <-]. simpl.
    apply parse_cancel_fields in Hc as (_ & Hp & _).
    apply pending_type_not_market in Hp. auto.
  - intros H. destruct (extract_pending_type t) as [pt|] eqn:Hp.
    + pose proof (pending_type_not_market _ _ Hp) as Hm.
      case_parse H; injection H as <-; simpl; repeat split; auto;
        intros ->; congruence.
    + case_parse H; injection H as <-; simpl; repeat split; auto;
        discriminate.
Qed.

Lemma X6_command_fields_by_action_witness :
  exists c, parse_message "-STD" sample_update = Some c /\
            type c <> MARKET /\ sl c = 0%F /\ tp c = 0%F.
Proof.
  eexists. split; [vm_compute; reflexivity|].
  exact (X6_command_fields_by_action "-STD" sample_update _
           ltac:(vm_compute; reflexivity)).
Defined.

(** ** Side and pending type *)

Lemma find_from_range i sub t :
  find_from i sub t = -1 \/ i <= find_from i sub t.
Proof.
  revert i. induction t as [|c t IH]; intros i; cbn [find_from].
  - destruct (String.prefix sub ""); [right; lia|now left].
  - destruct (String.prefix sub (String c t)); [right; lia|].
    destruct (IH (i + 1)) as [->|H]; [now left|right; lia].
Qed.

Lemma find_from_str_in i sub t :
  0 <= i -> (find_from i sub t = -1 <-> str_in sub t = false).
Proof.
  revert i. induction t as [|c t IH]; intros i Hi; cbn [find_from str_in].
  - destruct (String.prefix sub ""); cbn [orb]; split; try discriminate; auto.
    lia.
  - destruct (String.prefix sub (String c t)); cbn [orb].
    + split; [lia|discriminate].
    + apply IH. lia.
Qed.

Lemma find_str_in sub t : negb (find sub t =? -1) = str_in sub t.
Proof.
  unfold find. pose proof (find_from_str_in 0 sub t (Z.le_refl 0)) as H.
  destruct (str_in sub t).
  - destruct (find_from 0 sub t =? -1) eqn:E; [|reflexivity].
    apply Z.eqb_eq in E. apply H in E. discriminate.
  - rewrite (proj2 H eq_refl). reflexivity.
Qed.

(** Two words that cannot start at the same place are never first found at
    the same index. *)
Lemma find_from_distinct i a b t :
  0 <= i ->
  (forall s, String.prefix a s = true -> String.prefix b s = true -> False) ->
  find_from i a t <> -1 -> find_from i a t <> find_from i b t.
Proof.
  intros Hi Hex. revert i Hi. induction t as [|c t IH]; intros i Hi; cbn [find_from str_in].
  - destruct (String.prefix a "") eqn:Ea; [|congruence]. intros _.
    destruct (String.prefix b "") eqn:Eb; [exfalso; eauto|lia].
  - destruct (String.prefix a (String c t)) eqn:Ea.
    + intros _. destruct (String.prefix b (String c t)) eqn:Eb;
        [exfalso; eauto|].
      destruct (find_from_range (i + 1) b t); lia.
    + intros Hn. destruct (String.prefix b (String c t)) eqn:Eb.
      * destruct (find_from_range (i + 1) a t); [congruence|lia].
      * apply IH; [lia|exact Hn].
Qed.

Lemma buy_sell_exclusive s :
  String.prefix "BUY" s = true -> String.prefix "SELL" s = true -> False.
Proof.
  intros Hb Hs. destruct s as [|c s]; [vm_compute in Hb; discriminate Hb|].
  destruct (ascii_dec "B" c) as [<-|Hn].
  - vm_compute in Hs. discriminate Hs.
  - cbn [String.prefix] in Hb.
    destruct (ascii_dec "B" c); [contradiction|discriminate Hb].
Qed.

(** X7. The side is BUY or SELL according to which of the two words occurs
    in the uppercased text; when both occur the one found first wins, and
    when neither occurs there is no side. *)
Theorem X7_extract_side_leftmost (text : string) :
  let t := upper text in
  (extract_side text = None <->
   str_in "BUY" t = false /\ str_in "SELL" t = false) /\
  (extract_side text = Some BUY <->
   str_in "BUY" t = true /\
   (str_in "SELL" t = false \/ find "BUY" t < find "SELL" t)) /\
  (extract_side text = Some SELL <->
   str_in "SELL" t = true /\
   (str_in "BUY" t = false \/ find "SELL" t < find "BUY" t)).
Proof.
  intros t. unfold extract_side. fold t. rewrite !find_str_in.
  assert (Hne : str_in "BUY" t = true -> find "BUY" t <> find "SELL" t).
  { intros Hb. apply find_from_distinct; [lia|apply buy_sell_exclusive|].
    intros H. apply (find_from_str_in 0) in H; [congruence|lia]. }
  destruct (str_in "BUY" t) eqn:Eb, (str_in "SELL" t) eqn:Es; simpl;
    [specialize (Hne eq_refl);
     destruct (find "BUY" t <? find "SELL" t) eqn:E;
     [apply Z.ltb_lt in E|apply Z.ltb_ge in E]|..];
    intuition (try congruence; try lia).
Qed.

Lemma prefix_append a b t :
  String.prefix (a +:+ b) t = true -> String.prefix a t = true.
Proof.
  revert t. induction a as [|c a IH]; intros t.
  - now destruct t.
  - destruct t as [|c' t]; cbn [String.prefix String.append];
      [discriminate|].
    destruct (ascii_dec c c'); [apply IH|discriminate].
Qed.

Lemma str_in_append a b t : str_in (a +:+ b) t = true -> str_in a t = true.
Proof.
  induction t as [|c t IH]; cbn [str_in].
  - rewrite !orb_false_r. apply prefix_append.
  - intros [H|H]%orb_true_iff; apply orb_true_iff.
    + left. eapply prefix_append; eauto.
    + right. auto.
Qed.

(** X8. A pending type is never MARKET, and whenever one resolves the side
    resolves too: the phrase of the type contains the word of a side. *)
Theorem X8_pending_type_gives_side (text : string) (pt : OrderType) :
  extract_pending_type text = Some pt ->
  pt <> MARKET /\ exists sd, extract_side text = Some sd.
Proof.
  intros H. split; [eapply pending_type_not_market; eauto|].
  assert (Hin : str_in "BUY" (upper text) = true \/
                str_in "SELL" (upper text) = true).
  { unfold extract_pending_type in H.
    destruct (str_in "BUY LIMIT" (upper text)) eqn:E1;
      [left; now apply (str_in_append "BUY" " LIMIT")|].
    destruct (str_in "SELL LIMIT" (upper text)) eqn:E2;
      [right; now apply (str_in_append "SELL" " LIMIT")|].
    destruct (str_in "BUY STOP" (upper text)) eqn:E3;
      [left; now apply (str_in_append "BUY" " STOP")|].
    destruct (str_in "SELL STOP" (upper text)) eqn:E4;
      [right; now apply (str_in_append "SELL" " STOP")|discriminate]. }
  unfold extract_side. rewrite !find_str_in.
  destruct (str_in "BUY" (upper text)), (str_in "SELL" (upper text)); simpl;
    eauto.
  destruct Hin; discriminate.
Qed.

Lemma X8_pending_type_gives_side_witness :
  exists sd, extract_side "sell now, then BUY STOP eur/usd" = Some sd.
Proof.
  apply (X8_pending_type_gives_side "sell now, then BUY STOP eur/usd"
           BUY_STOP).
  vm_compute. reflexivity.
Defined.

(** ** Cancel and update *)

(** X9. [parse_cancel] succeeds exactly when ANNULLARE occurs as a whole
    word in the normalised text and pending type, side and symbol resolve;
    its result holds those three and the first parenthesised number, zero
    when there is none. *)
Theorem X9_parse_cancel_iff (sfx t : string) (c : Cancel) :
  parse_cancel sfx t = Some c <->
  (exists pre post,
     norm t = pre +:+ "ANNULLARE" +:+ post /\
     word_at (last_char None pre) = false /\
     word_at (head_char post) = false) /\
  extract_pending_type (norm t) = Some (c_type c) /\
  extract_side (norm t) = Some (c_side c) /\
  extract_symbol sfx (norm t) = Some (c_symbol c) /\
  c_entry c = first_price re_paren (norm t).
Proof.
  rewrite <- has_cancel_keyword_iff. split; [apply parse_cancel_fields|].
  intros ([cs Hk] & Hp & Hs & Hy & He).
  unfold parse_cancel. fold (norm t). rewrite Hk, Hp, Hs, Hy.
  rewrite (extract_symbol_nonempty _ _ _ Hy), <- He. now destruct c.
Qed.

(** X10. An update is never dropped: a message that matches the update
    phrase and is not a cancel always yields an UPDATE Command, because the
    phrase itself contains a six-letter word that serves as symbol when the
    text has no currency pair. *)
Theorem X10_update_always_emitted (sfx : string) (msg : Message) (t : string) :
  normalized msg = Some t -> parse_cancel sfx t = None ->
  is_Some (parse_update t) ->
  exists c, parse_message sfx msg = Some c /\ action c = UPDATE.
Proof.
  intros Hn Hc Hu.
  destruct (update_phrase_resolves_symbol sfx msg t Hn Hu) as [sym Hs].
  destruct Hu as [[old_e new_e] Hu].
  unfold parse_message, parse_text.
  rewrite Hn, Hc, Hu, Hs, (extract_symbol_nonempty _ _ _ Hs).
  eexists. split; reflexivity.
Qed.

Lemma X10_update_always_emitted_witness :
  exists c,
    parse_message "-STD"
      (sample 2 "modificare il prezzo di ingresso da 1.2 a 1.3") = Some c /\
    action c = UPDATE.
Proof.
  apply (X10_update_always_emitted "-STD" _
           "MODIFICARE IL PREZZO DI INGRESSO DA 1.2 A 1.3").
  - vm_compute. reflexivity.
  - vm_compute. reflexivity.
  - eexists. vm_compute. reflexivity.
Defined.

(** * Further properties of the stores *)

(** ** The dedup table *)

Lemma dict_set_elem_inv k v d e :
  e ∈ dict_set k v d -> e = (k, v) \/ e ∈ d.
Proof.
  induction d as [|[k' v'] d IH]; simpl.
  - intros ->%list_elem_of_singleton. now left.
  - destruct (k' =? k).
    + intros [-> | H]%elem_of_cons; [now left|right].
      apply elem_of_cons. now right.
    + intros [-> | H]%elem_of_cons.
      * right. apply elem_of_cons. now left.
      * destruct (IH H) as [->|H']; [now left|right].
        apply elem_of_cons. now right.
Qed.

Lemma dict_set_keeps_others k v d e :
  e ∈ d -> e.1 <> k -> e ∈ dict_set k v d.
Proof.
  induction d as [|[k' v'] d IH]; simpl.
  - now intros ?%elem_of_nil.
  - intros [-> | H]%elem_of_cons Hne.
    + simpl in Hne.
      destruct (k' =? k) eqn:E; [apply Z.eqb_eq in E; congruence|].
      apply elem_of_cons. now left.
    + destruct (k' =? k); apply elem_of_cons; right; auto.
Qed.

Lemma evict_sublist d : evict d `sublist_of` d.
Proof.
  unfold evict. destruct (20000 <? Z.of_nat (length d)); [|reflexivity].
  apply del_all_sublist.
Qed.

Lemma mark_dedup_ok id ts d :
  NoDup d.*1 -> Z.of_nat (length d) <= 20000 ->
  NoDup (evict (dict_set id ts d)).*1 /\
  Z.of_nat (length (evict (dict_set id ts d))) <= 20000.
Proof.
  intros Hnd Hlen.
  assert (Hr : NoDup (dict_set id ts d).*1) by (now apply dict_set_NoDup).
  split.
  - eapply sublist_NoDup; [exact Hr|]. apply fmap_sublist, evict_sublist.
  - pose proof (dict_set_length id ts d) as Hl.
    destruct (evict_spec _ Hr) as [Hsmall Hbig].
    destruct (Z_le_gt_dec (Z.of_nat (length (dict_set id ts d))) 20000)
      as [Hle|Hgt].
    + now rewrite Hsmall.
    + destruct Hbig as [-> _]; lia.
Qed.

(** X11. The dedup table stays well formed: from a table with unique keys
    and at most 20000 entries, [mark_processed] yields a table with unique
    keys and at most 20000 entries. *)
Theorem X11_mark_processed_keeps_bound (w : World) (id ts : Z) :
  dedup_ok w -> dedup_ok (run (mark_processed id ts) w).
Proof. intros [Hnd Hlen]. now apply mark_dedup_ok. Qed.

Lemma X11_mark_processed_keeps_bound_witness :
  dedup_ok (run (mark_processed 77 5)
              (world_of (stamped (Z.to_nat 20000) 100 (fun i => i))
                        (fun _ => 0))).
Proof.
  apply X11_mark_processed_keeps_bound. split.
  - apply stamped_NoDup.
  - vm_compute. discriminate.
Defined.

(** X12. [mark_processed] adds nothing but the entry it records and never
    changes another entry's timestamp; and while the table holds fewer than
    20000 entries it forgets nothing. *)
Theorem X12_mark_processed_only_adds (w : World) (id ts : Z) :
  let after := processed_ids (run (mark_processed id ts) w) in
  (forall e, e ∈ after -> e = (id, ts) \/ e ∈ processed_ids w) /\
  (Z.of_nat (length (processed_ids w)) < 20000 ->
   forall e, e ∈ processed_ids w -> e.1 <> id -> e ∈ after).
Proof.
  intros after. subst after.
  change (processed_ids (run (mark_processed id ts) w))
    with (evict (dict_set id ts (processed_ids w))).
  split.
  - intros e He. apply dict_set_elem_inv.
    eapply elem_of_sublist; [exact He|apply evict_sublist].
  - intros Hlen e He Hne. unfold evict.
    pose proof (dict_set_length id ts (processed_ids w)) as Hl.
    destruct (20000 <? _) eqn:E; [apply Z.ltb_lt in E; lia|].
    now apply dict_set_keeps_others.
Qed.

(** X13. Marking then asking: after [mark_processed] the id is reported as
    processed, provided no eviction can remove it, that is, the table held
    fewer than 20000 entries, or the id is new and its timestamp is not
    older than the stored ones. *)
Theorem X13_mark_then_already_processed (w : World) (id ts : Z) :
  Z.of_nat (length (processed_ids w)) < 20000 \/
  (dict_in id (processed_ids w) = false /\
   forall e, e ∈ processed_ids w -> e.2 <= ts) ->
  (already_processed id (run (mark_processed id ts) w)).1 = true.
Proof.
  change ((already_processed id (run (mark_processed id ts) w)).1)
    with (dict_in id (evict (dict_set id ts (processed_ids w)))).
  intros [Hlen | [Hnew Hts]].
  - unfold evict.
    pose proof (dict_set_length id ts (processed_ids w)) as Hl.
    destruct (20000 <? _) eqn:E; [apply Z.ltb_lt in E; lia|].
    apply dict_in_set.
  - apply evict_keeps_newest; [now apply dict_in_false|exact Hts].
Qed.

Lemma X13_mark_then_already_processed_witness :
  (already_processed 5
     (run (mark_processed 5 30) (world_of [(1, 10); (2, 20)] (fun _ => 0)))).1
  = true.
Proof.
  apply X13_mark_then_already_processed. left. vm_compute. reflexivity.
Defined.

(** ** The ledger *)

Lemma existsb_eqb_elem (id : Z) (l : list Z) :
  existsb (Z.eqb id) l = true <-> id ∈ l.
Proof.
  induction l as [|x l IH]; simpl.
  - rewrite elem_of_nil. split; [discriminate|tauto].
  - rewrite orb_true_iff, IH, elem_of_cons, Z.eqb_eq. tauto.
Qed.

Lemma linked_messages_spec id prior :
  id ∈ linked_messages id prior /\
  (forall o, prior = Some o -> NoDup (o_messages o) ->
             NoDup (linked_messages id prior)) /\
  (forall o, prior = Some o ->
             o_messages o `prefix_of` linked_messages id prior) /\
  (forall o, prior = Some o -> id ∈ o_messages o ->
             linked_messages id prior = o_messages o) /\
  (prior = None -> linked_messages id prior = [id]).
Proof.
  destruct prior as [o|]; simpl.
  - destruct (existsb (Z.eqb id) (o_messages o)) eqn:E.
    + apply existsb_eqb_elem in E.
      repeat split; auto; try discriminate; intros o' [= <-]; auto.
    + assert (id ∉ o_messages o) as Hn.
      { intros H. apply existsb_eqb_elem in H. congruence. }
      repeat split; try discriminate.
      * apply elem_of_app. right. now apply list_elem_of_singleton.
      * intros o' [= <-] Hnd. apply NoDup_app. split; [exact Hnd|]. split.
        -- intros x Hx ->%list_elem_of_singleton. contradiction.
        -- apply NoDup_singleton.
      * intros o' [= <-]. now apply prefix_app_r.
      * intros o' [= <-] Hin. contradiction.
  - repeat split; try discriminate; auto. now apply list_elem_of_singleton.
Qed.

(** What [link_message_to_order] does to the process state. *)
Lemma link_spec id oid cmd w :
  let w' := run (link_message_to_order id oid cmd) w in
  processed_ids w' = processed_ids w /\ csv_file w' = csv_file w /\
  jsonl_file w' = jsonl_file w /\ clock w' = clock w /\
  (exists r, db_messages w' = <[id := r]> (db_messages w) /\
             r_order_id r = oid /\ r_action r = action cmd) /\
  (exists o,
     db_orders w' = <[oid := o]> (db_orders w) /\
     o_messages o = linked_messages id (db_orders w !! oid) /\
     o_latest_action o = action cmd /\
     match db_orders w !! oid with
     | Some o0 => o_first_msg_id o = o_first_msg_id o0 /\
                  o_created_at o = o_created_at o0 /\
                  o_symbol o = o_symbol o0 /\ o_status o = o_status o0
     | None => o_first_msg_id o = id /\ o_symbol o = symbol cmd /\
               o_status o = "active"
     end).
Proof.
  unfold run, link_message_to_order, bind, get. simpl.
  destruct (db_orders w !! oid) as [o0|] eqn:Ho; simpl;
    repeat match goal with |- _ /\ _ => split end; try reflexivity;
    eexists; repeat match goal with |- _ /\ _ => split end; reflexivity.
Qed.

Lemma link_then_lookup (id : Z) (oid : string) (cmd : Command)
    (w : World) :
  let w' := run (link_message_to_order id oid cmd) w in
  (get_order_id_for_msg id w').1 = Some oid /\
  (exists o, (get_order_summary oid w').1 = Some o /\
             id ∈ o_messages o /\ o_latest_action o = action cmd) /\
  (forall k, k <> id ->
             (get_order_id_for_msg k w').1 = (get_order_id_for_msg k w).1) /\
  (forall o', o' <> oid ->
              (get_order_summary o' w').1 = (get_order_summary o' w).1).
Proof.
  intros w'.
  destruct (link_spec id oid cmd w)
    as (_ & _ & _ & _ & (r & Hm & Hr & _) & (o & Ho & Hl & Ha & _)).
  fold w' in Hm, Ho.
  unfold get_order_id_for_msg, get_order_summary, bind, get, ret. simpl.
  rewrite Hm, Ho. split; [|split; [|split]].
  - now rewrite lookup_insert_eq, <- Hr.
  - exists o. rewrite lookup_insert_eq. split; [reflexivity|].
    split; [|exact Ha]. rewrite Hl. apply linked_messages_spec.
  - intros k Hk. now rewrite lookup_insert_ne.
  - intros o' Ho'. now rewrite lookup_insert_ne.
Qed.

(** X14. Linking then looking up: after [link_message_to_order] the message
    resolves to the order it was linked to and the order's summary lists the
    message and shows the Command's action; other messages and other orders
    are untouched. *)
Theorem X14_link_then_lookup (id : Z) (oid : string) (cmd : Command)
    (w : World) :
  let w' := run (link_message_to_order id oid cmd) w in
  (get_order_id_for_msg id w').1 = Some oid /\
  (exists o, (get_order_summary oid w').1 = Some o /\
             id ∈ o_messages o /\ o_latest_action o = action cmd) /\
  (forall k, k <> id ->
             (get_order_id_for_msg k w').1 = (get_order_id_for_msg k w).1) /\
  (forall o', o' <> oid ->
              (get_order_summary o' w').1 = (get_order_summary o' w).1).
Proof. apply link_then_lookup. Qed.

(** X15. An order only grows: linking a message to an existing order keeps
    its first message, creation time, symbol and status, and the old message
    sequence is a prefix of the new one; a message already listed is not
    listed again. *)
Theorem X15_link_extends_order (id : Z) (oid : string) (cmd : Command)
    (w : World) (o0 : Order) :
  db_orders w !! oid = Some o0 ->
  exists o,
    db_orders (run (link_message_to_order id oid cmd) w) !! oid = Some o /\
    o_first_msg_id o = o_first_msg_id o0 /\
    o_created_at o = o_created_at o0 /\
    o_symbol o = o_symbol o0 /\ o_status o = o_status o0 /\
    o_messages o0 `prefix_of` o_messages o /\
    (id ∈ o_messages o0 -> o_messages o = o_messages o0) /\
    (NoDup (o_messages o0) -> NoDup (o_messages o)).
Proof.
  intros H0.
  destruct (link_spec id oid cmd w)
    as (_ & _ & _ & _ & _ & (o & Ho & Hl & _ & Hf)).
  rewrite H0 in Hf, Hl. destruct Hf as (Hf & Hc & Hs & Hst).
  destruct (linked_messages_spec id (Some o0)) as (_ & Hnd & Hpre & Hsame & _).
  exists o. rewrite Ho, lookup_insert_eq, Hl.
  repeat match goal with |- _ /\ _ => split end; eauto.
Qed.

Lemma X15_link_extends_order_witness :
  exists o,
    db_orders
      (run (link_message_to_order 6 (order_msg 5)
              {| cmd_id := "tg_6"; action := CANCEL; symbol := "EURUSD-STD";
                 type := BUY_LIMIT; side := BUY; entry := 0; sl := 0; tp := 0;
                 old_entry := 0; order_id := order_msg 5; meta := None |})
           (run (handler "-STD" sample_open)
                (world_of [] (fun n => 1000 + Z.of_nat n))))
      !! order_msg 5 = Some o /\
    o_first_msg_id o = 5.
Proof.
  edestruct (X15_link_extends_order 6 (order_msg 5)
               {| cmd_id := "tg_6"; action := CANCEL; symbol := "EURUSD-STD";
                  type := BUY_LIMIT; side := BUY; entry := 0; sl := 0;
                  tp := 0; old_entry := 0; order_id := order_msg 5;
                  meta := None |}
               (run (handler "-STD" sample_open)
                    (world_of [] (fun n => 1000 + Z.of_nat n))))
    as (o & Ho & Hf & _).
  - vm_compute. reflexivity.
  - exists o. split; [exact Ho|]. rewrite Hf. reflexivity.
Defined.

(** ** The live handler *)

Lemma resolve_nonempty msg w : nonempty (resolve_order_id msg w).1 = true.
Proof.
  destruct (resolve_cases msg w) as [-> | (linked & r & _ & -> & H)];
    [reflexivity|exact H].
Qed.

(** What the handler does with a new message that yields a Command. *)
Lemma handler_command_full sfx msg w c0 :
  dict_in (msg_id msg) (processed_ids w) = false ->
  parse_message sfx msg = Some c0 ->
  let oid := (resolve_order_id msg w).1 in
  let cmd := with_order_id c0 oid in
  let w1 := run (link_message_to_order (msg_id msg) oid cmd) w in
  let w' := run (handler sfx msg) w in
  db_messages w' = db_messages w1 /\ db_orders w' = db_orders w1 /\
  jsonl_file w' = jsonl_file w ++ [cmd] /\
  csv_file w' =
    Some (match csv_file w with None => [CSV_HEADER] | Some rows => rows end
          ++ [csv_row cmd]) /\
  exists n, processed_ids w' =
            evict (dict_set (msg_id msg) (clock w n) (processed_ids w)).
Proof.
  intros Hseen Hparse oid cmd w1 w'. subst w' w1 cmd.
  unfold run, handler, already_processed, bind, get, ret. simpl.
  rewrite Hseen, Hparse.
  pose proof (resolve_order_id_pure msg w) as Hpure. subst oid.
  destruct (resolve_order_id msg w) as [oid w0]. simpl in Hpure. subst w0.
  simpl. unfold link_message_to_order, bind, get. simpl.
  destruct (db_orders w !! oid) as [o|] eqn:Ho; simpl;
    (destruct (csv_file w); simpl; repeat split; eauto).
Qed.

(** X16. A new message that yields no Command is still marked processed,
    with the current clock reading, and nothing else changes: the ledger and
    both logs are as before. *)
Theorem X16_ignored_message_marked (sfx : string) (msg : Message) (w : World) :
  dict_in (msg_id msg) (processed_ids w) = false ->
  parse_message sfx msg = None ->
  let w' := run (handler sfx msg) w in
  processed_ids w' =
    evict (dict_set (msg_id msg) (clock w (ticks w)) (processed_ids w)) /\
  db_messages w' = db_messages w /\ db_orders w' = db_orders w /\
  csv_file w' = csv_file w /\ jsonl_file w' = jsonl_file w.
Proof.
  intros Hseen Hparse w'. subst w'.
  unfold run, handler, already_processed, bind, get, ret. simpl.
  rewrite Hseen, Hparse. simpl. repeat split.
Qed.

Lemma X16_ignored_message_marked_witness :
  processed_ids
    (run (handler "-STD" (sample 3 "good morning"))
         (world_of [] (fun n => 1000 + Z.of_nat n))) = [(3, 1000)].
Proof.
  rewrite (proj1 (X16_ignored_message_marked "-STD" (sample 3 "good morning")
                    (world_of [] (fun n => 1000 + Z.of_nat n))
                    eq_refl ltac:(vm_compute; reflexivity))).
  vm_compute. reflexivity.
Defined.

(** X17. What is emitted is what is recorded: for a new message that yields
    a Command, the emitted Command carries a non-empty order id, the message
    then resolves to that same order id, the order lists the message and
    shows the Command's action, and both logs grow by exactly this
    Command. *)
Theorem X17_emitted_matches_ledger (sfx : string) (msg : Message) (w : World)
    (c0 : Command) :
  dict_in (msg_id msg) (processed_ids w) = false ->
  parse_message sfx msg = Some c0 ->
  let w' := run (handler sfx msg) w in
  exists cmd,
    jsonl_file w' = jsonl_file w ++ [cmd] /\
    cmd = with_order_id c0 (order_id cmd) /\
    nonempty (order_id cmd) = true /\
    (get_order_id_for_msg (msg_id msg) w').1 = Some (order_id cmd) /\
    (exists o, (get_order_summary (order_id cmd) w').1 = Some o /\
               msg_id msg ∈ o_messages o /\
               o_latest_action o = action c0).
Proof.
  intros Hseen Hparse w'.
  destruct (handler_command_full sfx msg w c0 Hseen Hparse)
    as (Hm & Ho & Hj & _ & _).
  set (oid := (resolve_order_id msg w).1) in *.
  set (cmd := with_order_id c0 oid) in *.
  destruct (link_then_lookup (msg_id msg) oid cmd w)
    as (Hg & (o & Hs & Hin & Ha) & _).
  unfold get_order_id_for_msg, get_order_summary, bind, get, ret in *.
  simpl in *. fold w' in Hm, Ho, Hj.
  exists cmd. rewrite Hm, Ho. split; [exact Hj|]. split; [reflexivity|].
  split; [apply resolve_nonempty|]. split; [exact Hg|].
  exists o. auto.
Qed.

Lemma X17_emitted_matches_ledger_witness :
  exists cmd,
    jsonl_file (run (handler "-STD" sample_open)
                  (world_of [] (fun n => 1000 + Z.of_nat n))) = [] ++ [cmd] /\
    nonempty (order_id cmd) = true.
Proof.
  destruct (X17_emitted_matches_ledger "-STD" sample_open
              (world_of [] (fun n => 1000 + Z.of_nat n)) _
              eq_refl ltac:(vm_compute; reflexivity))
    as (cmd & Hj & _ & Hn & _).
  exists cmd. split; [exact Hj|exact Hn].
Defined.







(** ** Reply chains of any length *)

Lemma reply_chain_tail sfx oid :
  nonempty oid = true ->
  forall rest w last ids,
    (exists r, db_messages w !! msg_id last = Some r /\ r_order_id r = oid) ->
    (exists o, db_orders w !! oid = Some o /\ o_messages o = ids) ->
    msg_id last <> 0 ->
    replies_chain last rest ->
    NoDup (msg_id <$> rest) ->
    (forall m, m ∈ rest ->
       msg_id m <> 0 /\ (msg_id m ∉ ids) /\
       dict_in (msg_id m) (processed_ids w) = false /\
       is_Some (parse_message sfx m)) ->
    let w' := run_all sfx rest w in
    (exists cmds,
       jsonl_file w' = jsonl_file w ++ cmds /\
       Forall2 (fun m c => order_id c = oid /\
                           exists c0, parse_message sfx m = Some c0 /\
                                      c = with_order_id c0 oid) rest cmds) /\
    (exists o, db_orders w' !! oid = Some o /\
               o_messages o = ids ++ (msg_id <$> rest)) /\
    (forall k, k ∉ msg_id <$> rest ->
               db_messages w' !! k = db_messages w !! k) /\
    (forall m, m ∈ rest ->
               r_order_id <$> db_messages w' !! msg_id m = Some oid).
Proof.
  intros Hne. induction rest as [|m rest IH];
    intros w last ids Hrec Hord Hz Hch Hnd Hall.
  - simpl. split; [|split; [|split]].
    + exists []. rewrite app_nil_r. split; [reflexivity|constructor].
    + destruct Hord as (o & Ho & Hm). exists o. now rewrite app_nil_r.
    + reflexivity.
    + intros m Hm. now apply elem_of_nil in Hm.
  - destruct Hch as [Hrep Hch]. apply NoDup_cons in Hnd as [Hm_new Hnd].
    destruct (Hall m) as (Hmz & Hmids & Hms & [c0 Hmp]);
      [apply elem_of_cons; now left|].
    destruct Hrec as (r & Hr & Hro). destruct Hord as (o & Ho & Hom).
    assert (Hres : (resolve_order_id m w).1 = oid).
    { rewrite <- Hro. apply (resolve_reply m w (msg_id last)); auto.
      now rewrite Hro. }
    destruct (handler_command_full sfx m w c0 Hms Hmp)
      as (Hdm & Hdo & Hj & _ & [n Hd]).
    rewrite Hres in Hdm, Hdo, Hj.
    destruct (link_spec (msg_id m) oid (with_order_id c0 oid) w)
      as (_ & _ & _ & _ & (r' & Hm' & Hr' & _) & (o' & Ho' & Hl' & _)).
    rewrite Hm' in Hdm. rewrite Ho' in Hdo.
    rewrite Ho in Hl'. simpl in Hl'.
    assert (existsb (Z.eqb (msg_id m)) (o_messages o) = false) as Hex.
    { destruct (existsb _ _) eqn:E; [|reflexivity].
      apply existsb_eqb_elem in E. rewrite Hom in E. contradiction. }
    rewrite Hex, Hom in Hl'.
    set (w1 := run (handler sfx m) w) in *.
    destruct (IH w1 m (ids ++ [msg_id m]))
      as ((cmds & Hj' & Hf) & (o2 & Ho2 & Hm2) & Hkeep & Hrecs).
    + exists r'. rewrite Hdm, lookup_insert_eq. auto.
    + exists o'. rewrite Hdo, lookup_insert_eq. auto.
    + exact Hmz.
    + exact Hch.
    + exact Hnd.
    + intros m' Hin. destruct (Hall m') as (H1 & H2 & H3 & H4);
        [apply elem_of_cons; now right|].
      assert (msg_id m' <> msg_id m) as Hdiff.
      { intros E. apply Hm_new. rewrite <- E.
        now apply list_elem_of_fmap_2. }
      repeat split; auto.
      * intros [Hi | Hi%list_elem_of_singleton]%elem_of_app; auto.
      * rewrite Hd. now apply mark_keeps_unseen.
    + simpl. fold w1. split; [|split; [|split]].
      * exists (with_order_id c0 oid :: cmds). rewrite Hj', Hj, <- app_assoc.
        split; [reflexivity|]. constructor; eauto.
      * exists o2. split; [exact Ho2|]. rewrite Hm2, <- app_assoc.
        reflexivity.
      * intros k [Hk1 Hk2]%not_elem_of_cons. rewrite Hkeep by exact Hk2.
        rewrite Hdm. now apply lookup_insert_ne.
      * intros m' [-> | Hin]%elem_of_cons; [|now apply Hrecs].
        rewrite Hkeep by exact Hm_new. rewrite Hdm, lookup_insert_eq.
        simpl. now rewrite Hr'.
Qed.

(** X20. A reply chain of any length stays in one order: after a root
    message without reply target, every further message that replies to the
    one before it is emitted with the root's order id in its order id field
    and resolves to that order id in the ledger, and the order lists all of
    them in arrival order. *)
Theorem X20_reply_chain_any_length (sfx : string) (w : World)
    (root : Message) (rest : list Message) (c1 : Command) :
  ledger_wf w ->
  db_messages w !! msg_id root = None ->
  reply_to_msg_id root = None ->
  parse_message sfx root = Some c1 ->
  replies_chain root rest ->
  NoDup (msg_id <$> root :: rest) ->
  (forall m, m ∈ root :: rest ->
     msg_id m <> 0 /\ dict_in (msg_id m) (processed_ids w) = false /\
     is_Some (parse_message sfx m)) ->
  let w' := run_all sfx (root :: rest) w in
  let oid := order_msg (msg_id root) in
  (exists cmds,
     jsonl_file w' = jsonl_file w ++ cmds /\
     Forall2 (fun m c => order_id c = oid /\
                         exists c0, parse_message sfx m = Some c0 /\
                                    c = with_order_id c0 oid)
             (root :: rest) cmds) /\
  (forall m, m ∈ root :: rest ->
             (get_order_id_for_msg (msg_id m) w').1 = Some oid) /\
  (exists o, db_orders w' !! oid = Some o /\
             o_messages o = msg_id <$> root :: rest).
Proof.
  intros [Hwo _] Hfresh Hrr Hp1 Hch Hnd Hall w' oid.
  apply NoDup_cons in Hnd as [Hroot Hnd].
  destruct (Hall root) as (Hz & Hs & _); [apply elem_of_cons; now left|].
  assert (Hnew : db_orders w !! oid = None).
  { destruct (db_orders w !! oid) as [o|] eqn:Ho; [|reflexivity].
    destruct (Hwo _ _ Ho) as (m & Hm & [r Hr]).
    apply order_msg_inj in Hm. subst m. congruence. }
  destruct (handler_command_full sfx root w c1 Hs Hp1)
    as (Hdm & Hdo & Hj & _ & [n Hd]).
  rewrite (resolve_root root w Hrr) in Hdm, Hdo, Hj. fold oid in Hdm, Hdo, Hj.
  destruct (link_spec (msg_id root) oid (with_order_id c1 oid) w)
    as (_ & _ & _ & _ & (r' & Hm' & Hr' & _) & (o' & Ho' & Hl' & _)).
  rewrite Hm' in Hdm. rewrite Ho' in Hdo. rewrite Hnew in Hl'. simpl in Hl'.
  set (w1 := run (handler sfx root) w) in *.
  destruct (reply_chain_tail sfx oid (order_msg_nonempty _) rest w1 root
              [msg_id root])
    as ((cmds & Hj' & Hf) & (o2 & Ho2 & Hm2) & Hkeep & Hrecs).
  - exists r'. rewrite Hdm, lookup_insert_eq. auto.
  - exists o'. rewrite Hdo, lookup_insert_eq. auto.
  - exact Hz.
  - exact Hch.
  - exact Hnd.
  - intros m Hin. destruct (Hall m) as (H1 & H2 & H3);
      [apply elem_of_cons; now right|].
    assert (msg_id m <> msg_id root) as Hdiff.
    { intros E. apply Hroot. rewrite <- E. now apply list_elem_of_fmap_2. }
    repeat split; auto.
    + intros Hi%list_elem_of_singleton. congruence.
    + rewrite Hd. now apply mark_keeps_unseen.
  - subst w'. simpl. fold w1. split; [|split].
    + exists (with_order_id c1 oid :: cmds). rewrite Hj', Hj, <- app_assoc.
      split; [reflexivity|]. constructor; eauto.
    + unfold get_order_id_for_msg, bind, get, ret. cbn [fst].
      intros m [-> | Hin]%elem_of_cons; [|now apply Hrecs].
      rewrite Hkeep by exact Hroot. rewrite Hdm, lookup_insert_eq.
      simpl. now rewrite Hr'.
    + exists o2. auto.
Qed.

Lemma X20_reply_chain_any_length_witness :
  exists e1 e2 e3 o,
    jsonl_file (run_all "-STD" [sample_open; sample_update; sample_cancel]
                  (world_of [] (fun n => 1000 + Z.of_nat n)))
    = [] ++ [e1; e2; e3] /\
    order_id e1 = "order_msg5" /\ order_id e2 = "order_msg5" /\
    order_id e3 = "order_msg5" /\
    db_orders (run_all "-STD" [sample_open; sample_update; sample_cancel]
                 (world_of [] (fun n => 1000 + Z.of_nat n)))
      !! "order_msg5" = Some o /\
    o_messages o = [5; 6; 7].
Proof.
  assert (Hp : exists c, parse_message "-STD" sample_open = Some c)
    by (eexists; vm_compute; reflexivity).
  destruct Hp as [c1 Hp1].
  destruct (X20_reply_chain_any_length "-STD"
              (world_of [] (fun n => 1000 + Z.of_nat n))
              sample_open [sample_update; sample_cancel] c1
              (ledger_wf_empty _ _) eq_refl eq_refl Hp1)
    as ((cmds & Hj & Hf) & _ & o & Ho & Hm).
  - repeat split.
  - repeat constructor; vm_compute; intros H;
      repeat (apply elem_of_cons in H as [H|H]; [discriminate H|]);
      now apply elem_of_nil in H.
  - intros m Hm. repeat (apply elem_of_cons in Hm as [-> | Hm]);
      [..|now apply elem_of_nil in Hm];
      (split; [discriminate|split; [reflexivity|]]);
      eexists; vm_compute; reflexivity.
  - apply Forall2_cons_inv_l in Hf as (e1 & k1 & [H1 _] & Hf & ->).
    apply Forall2_cons_inv_l in Hf as (e2 & k2 & [H2 _] & Hf & ->).
    apply Forall2_cons_inv_l in Hf as (e3 & k3 & [H3 _] & Hf & ->).
    apply Forall2_nil_inv_l in Hf as ->.
    exists e1, e2, e3, o. auto 10.
Defined.

(** ** Test mode *)

Section TestModeFacts.

Variable sfx : string.
Variable fetch : Z -> Fetched.

Lemma batch_step_spec k st :
  let st' := (batch_step sfx fetch k st).1 in
  processed_ids (b_world st') = processed_ids (b_world st) /\
  csv_file (b_world st') = csv_file (b_world st) /\
  jsonl_file (b_world st') = jsonl_file (b_world st) /\
  (forall k', k' <> k -> b_csv st' !! k' = b_csv st !! k' /\
                         b_jsonl st' !! k' = b_jsonl st !! k').
Proof.
  unfold batch_step. destruct (fetch k) as [msg| |]; simpl; auto.
  destruct (parse_message sfx msg) as [c0|]; simpl; auto.
  pose proof (resolve_order_id_pure msg (b_world st)) as Hpure.
  destruct (resolve_order_id msg (b_world st)) as [oid w1]. simpl in *.
  subst w1.
  destruct (link_spec (msg_id msg) oid (with_order_id c0 oid) (b_world st))
    as (H1 & H2 & H3 & _).
  repeat split; auto.
  - unfold append_csv_at. destruct (b_csv st !! k);
      now rewrite lookup_insert_ne.
  - unfold append_jsonl_at. now rewrite lookup_insert_ne.
Qed.

(** X21. Test mode bypasses the dedup table: processing a list of requested
    ids reports exactly one outcome per id, never reads or changes the dedup
    table or the two shared logs, and writes only to the files of the
    requested ids. *)
Theorem X21_batch_bypasses_dedup (ks : list Z) (st : BatchState) :
  let st' := (batch sfx fetch ks st).1 in
  length (batch sfx fetch ks st).2 = length ks /\
  processed_ids (b_world st') = processed_ids (b_world st) /\
  csv_file (b_world st') = csv_file (b_world st) /\
  jsonl_file (b_world st') = jsonl_file (b_world st) /\
  (forall k, k ∉ ks -> b_csv st' !! k = b_csv st !! k /\
                       b_jsonl st' !! k = b_jsonl st !! k).
Proof.
  revert st. induction ks as [|k ks IH]; intros st; simpl.
  - repeat split; auto.
  - destruct (batch_step_spec k st) as (H1 & H2 & H3 & H4).
    destruct (batch_step sfx fetch k st) as [st1 o] eqn:E1. simpl in *.
    destruct (IH st1) as (L & I1 & I2 & I3 & I4).
    destruct (batch sfx fetch ks st1) as [st2 os] eqn:E2. simpl in *.
    split; [lia|]. split; [congruence|]. split; [congruence|].
    split; [congruence|].
    intros k' [Hne Hin]%not_elem_of_cons.
    destruct (I4 k' Hin) as [-> ->]. now apply H4.
Qed.

(** X22. Test mode and the live handler agree on the ledger: for a message
    the dedup table does not hold, one test-mode step leaves the same
    message records and order aggregates as the handler, and reports the
    Command the handler emits. *)
Theorem X22_batch_agrees_with_handler (k : Z) (st : BatchState)
    (msg : Message) :
  fetch k = Found msg ->
  dict_in (msg_id msg) (processed_ids (b_world st)) = false ->
  let w_h := run (handler sfx msg) (b_world st) in
  let w_b := b_world (batch_step sfx fetch k st).1 in
  db_messages w_b = db_messages w_h /\ db_orders w_b = db_orders w_h /\
  match (batch_step sfx fetch k st).2 with
  | Parsed cmd => jsonl_file w_h = jsonl_file (b_world st) ++ [cmd]
  | _ => jsonl_file w_h = jsonl_file (b_world st)
  end.
Proof.
  intros Hf Hs w_h w_b. subst w_h w_b. unfold batch_step. rewrite Hf.
  destruct (parse_message sfx msg) as [c0|] eqn:Hp.
  - destruct (handler_command_full sfx msg (b_world st) c0 Hs Hp)
      as (Hm & Ho & Hj & _).
    pose proof (resolve_order_id_pure msg (b_world st)) as Hpure.
    destruct (resolve_order_id msg (b_world st)) as [oid w1]. simpl in *.
    subst w1. rewrite Hm, Ho, Hj. simpl. auto.
  - destruct (handler_ignored sfx msg (b_world st) Hs Hp)
      as (Hj & _ & _ & _ & Hm & Ho).
    rewrite Hm, Ho, Hj. simpl. auto.
Qed.

Lemma resolve_after_link msg w r :
  r_order_id r = (resolve_order_id msg w).1 ->
  forall w1, db_messages w1 = <[msg_id msg := r]> (db_messages w) ->
  (resolve_order_id msg w1).1 = (resolve_order_id msg w).1.
Proof.
  intros Hr w1 Hm. pose proof (resolve_nonempty msg w) as Hne.
  revert Hr Hne.
  unfold resolve_order_id, get_order_id_for_msg, bind, get, ret.
  destruct (linked_id msg) as [linked|]; simpl; [|reflexivity].
  rewrite Hm. destruct (decide (msg_id msg = linked)) as [<-|Hd].
  - rewrite lookup_insert_eq. simpl. intros -> ->. reflexivity.
  - rewrite lookup_insert_ne by exact Hd. intros _ _.
    destruct (db_messages w !! linked) as [r0|]; simpl; [|reflexivity].
    now destruct (nonempty (r_order_id r0)).
Qed.

(** X23. Reprocessing in test mode repeats the output but not the link:
    running the same request twice reports the same Command both times and
    appends it twice to the request's record file, while every order keeps
    the message sequence it had after the first run and every message keeps
    its order id. *)
Theorem X23_batch_reprocessing (k : Z) (st : BatchState) (msg : Message)
    (c0 : Command) :
  fetch k = Found msg -> parse_message sfx msg = Some c0 ->
  let r1 := batch_step sfx fetch k st in
  let r2 := batch_step sfx fetch k r1.1 in
  r2.2 = r1.2 /\
  (exists cmd, r1.2 = Parsed cmd /\
     b_jsonl r2.1 !! k = Some (default [] (b_jsonl st !! k) ++ [cmd; cmd])) /\
  (forall oid, o_messages <$> db_orders (b_world r2.1) !! oid
               = o_messages <$> db_orders (b_world r1.1) !! oid) /\
  (forall m, r_order_id <$> db_messages (b_world r2.1) !! m
             = r_order_id <$> db_messages (b_world r1.1) !! m).
Proof.
  intros Hf Hp r1 r2. subst r2 r1. unfold batch_step. rewrite Hf, Hp.
  pose proof (resolve_order_id_pure msg (b_world st)) as Hpure.
  set (w := b_world st) in *.
  destruct (resolve_order_id msg w) as [oid w0] eqn:Hres. simpl in Hpure.
  subst w0. cbn [fst snd b_world].
  set (cmd := with_order_id c0 oid).
  set (w1 := run (link_message_to_order (msg_id msg) oid cmd) w).
  destruct (link_spec (msg_id msg) oid cmd w)
    as (_ & _ & _ & _ & (r & Hm & Hr & _) & (o & Ho & Hl & _)).
  fold w1 in Hm, Ho.
  assert (Hsame : (resolve_order_id msg w1).1 = oid).
  { replace oid with (resolve_order_id msg w).1 by now rewrite Hres.
    eapply resolve_after_link; [|exact Hm]. now rewrite Hres. }
  pose proof (resolve_order_id_pure msg w1) as Hpure1.
  destruct (resolve_order_id msg w1) as [oid' w1'] eqn:Hres1.
  simpl in Hsame, Hpure1. subst oid' w1'. cbn [fst snd b_world b_jsonl].
  fold cmd.
  destruct (link_spec (msg_id msg) oid cmd w1)
    as (_ & _ & _ & _ & (r2 & Hm2 & Hr2 & _) & (o2 & Ho2 & Hl2 & _)).
  split; [reflexivity|]. split; [|split].
  - exists cmd. split; [reflexivity|]. unfold append_jsonl_at.
    rewrite !lookup_insert_eq. simpl. now rewrite <- app_assoc.
  - intros oid'. rewrite Ho2.
    destruct (decide (oid = oid')) as [<-|Hne];
      [|now rewrite lookup_insert_ne].
    rewrite lookup_insert_eq, Ho, lookup_insert_eq. simpl. f_equal.
    rewrite Hl2, Ho, lookup_insert_eq.
    apply linked_messages_spec with (o := o); [reflexivity|].
    rewrite Hl. apply linked_messages_spec.
  - intros m. rewrite Hm2.
    destruct (decide (msg_id msg = m)) as [<-|Hne];
      [|now rewrite lookup_insert_ne].
    rewrite lookup_insert_eq, Hm, lookup_insert_eq. simpl. congruence.
Qed.

End TestModeFacts.

Lemma X22_batch_agrees_with_handler_witness :
  db_orders
    (b_world (batch_step "-STD" (fun _ => Found sample_open) 5
                {| b_world := world_of [] (fun n => 1000 + Z.of_nat n);
                   b_csv := ∅; b_jsonl := ∅ |}).1)
  = db_orders
      (run (handler "-STD" sample_open)
           (world_of [] (fun n => 1000 + Z.of_nat n))).
Proof.
  pose proof (X22_batch_agrees_with_handler "-STD"
                (fun _ => Found sample_open) 5
                {| b_world := world_of [] (fun n => 1000 + Z.of_nat n);
                   b_csv := ∅; b_jsonl := ∅ |} sample_open
                eq_refl eq_refl) as H.
  cbv zeta beta in H. destruct H as (_ & H & _). apply H.
Defined.

Lemma X23_batch_reprocessing_witness :
  (batch_step "-STD" (fun _ => Found sample_open) 5
     (batch_step "-STD" (fun _ => Found sample_open) 5
        {| b_world := world_of [] (fun n => 1000 + Z.of_nat n);
           b_csv := ∅; b_jsonl := ∅ |}).1).2
  = (batch_step "-STD" (fun _ => Found sample_open) 5
       {| b_world := world_of [] (fun n => 1000 + Z.of_nat n);
          b_csv := ∅; b_jsonl := ∅ |}).2.
Proof.
  assert (Hp : exists c0, parse_message "-STD" sample_open = Some c0).
  { eexists. vm_compute. reflexivity. }
  destruct Hp as [c0 Hp].
  pose proof (X23_batch_reprocessing "-STD" (fun _ => Found sample_open) 5
                {| b_world := world_of [] (fun n => 1000 + Z.of_nat n);
                   b_csv := ∅; b_jsonl := ∅ |} sample_open c0
                eq_refl Hp) as H.
  exact (proj1 H).
Defined.

(** ** Labelled numbers and symbols *)

Lemma prefix_self_append sub post : String.prefix sub (sub +:+ post) = true.
Proof.
  induction sub as [|c sub IH]; cbn [String.prefix String.append].
  - now destruct post.
  - destruct (ascii_dec c c); [exact IH|contradiction].
Qed.

Lemma str_in_occurrence sub pre post :
  str_in sub (pre +:+ sub +:+ post) = true.
Proof.
  induction pre as [|c pre IH]; cbn [String.append].
  - destruct (sub +:+ post) eqn:E; cbn [str_in];
      rewrite <- E, prefix_self_append; reflexivity.
  - cbn [str_in]. rewrite IH. apply orb_true_r.
Qed.

Lemma first_price_label label R t :
  str_in label t = false -> first_price (Cat (Lit label) R) t = 0%F.
Proof.
  intros Hno. unfold first_price.
  pose proof (re_search_spec (Cat (Lit label) R) t) as H.
  destruct (re_search (Cat (Lit label) R) t) as [cs|]; [|reflexivity].
  destruct H as (pre & post & -> & Hm & _). unfold match_here in Hm.
  apply m_lit in Hm as (s1 & -> & _).
  rewrite str_in_occurrence in Hno. discriminate.
Qed.

(** X24. A number needs its label: without the word PREZZO the entry is
    zero, without STOP the stop-loss is zero, without TAKE the take-profit
    is zero. *)
Theorem X24_missing_label_gives_zero (text : string) :
  let v := extract_entry_sl_tp text in
  (str_in "PREZZO" (upper text) = false -> v_entry v = 0%F) /\
  (str_in "STOP" (upper text) = false -> v_sl v = 0%F) /\
  (str_in "TAKE" (upper text) = false -> v_tp v = 0%F).
Proof.
  unfold extract_entry_sl_tp. cbn [v_entry v_sl v_tp].
  repeat split; intros H; now apply first_price_label.
Qed.

Lemma upper_char_delete c (old : ascii) :
  old = " "%char \/ old = "/"%char ->
  upper (if Ascii.eqb c old then "" else String c "")
  = replace old "" (upper_char c).
Proof.
  intros [-> | ->];
    destruct c as [[|] [|] [|] [|] [|] [|] [|] [|]]; vm_compute; reflexivity.
Qed.

Lemma upper_replace_delete old s :
  old = " "%char \/ old = "/"%char ->
  upper (replace old "" s) = replace old "" (upper s).
Proof.
  intros Hold. induction s as [|c s IH]; [reflexivity|]. cbn [replace upper].
  rewrite replace_append, <- IH, <- (upper_char_delete c old Hold).
  destruct (Ascii.eqb c old); simpl; now rewrite ?append_nil_r.
Qed.

Lemma replace_delete_absent old s :
  all_chars (fun c => negb (Ascii.eqb c old)) (replace old "" s) = true.
Proof.
  induction s as [|c s IH]; [reflexivity|]. cbn [replace].
  destruct (Ascii.eqb c old) eqn:E; simpl; [exact IH|]. now rewrite E, IH.
Qed.

Lemma replace_delete_keeps p old s :
  all_chars p s = true -> all_chars p (replace old "" s) = true.
Proof.
  induction s as [|c s IH]; [reflexivity|]. cbn [replace all_chars].
  intros [Hc Hs]%andb_true_iff.
  destruct (Ascii.eqb c old); simpl; [auto|]. now rewrite Hc, IH.
Qed.

(** X25. [normalize_symbol] returns a code followed by the suffix; the code
    holds neither a space nor a slash and is in capitals (uppercasing it
    again changes nothing). *)
Theorem X25_normalize_symbol_shape (sfx raw : string) :
  exists code,
    normalize_symbol sfx raw = code +:+ sfx /\
    all_chars (fun c => negb (Ascii.eqb c " ")) code = true /\
    all_chars (fun c => negb (Ascii.eqb c "/")) code = true /\
    upper code = code.
Proof.
  unfold normalize_symbol. eexists. split; [reflexivity|]. split; [|split].
  - apply replace_delete_keeps, replace_delete_absent.
  - apply replace_delete_absent.
  - rewrite !upper_replace_delete by auto. now rewrite upper_idem.
Qed.

Lemma X12_mark_processed_only_adds_witness :
  (1, 10) ∈ processed_ids
              (run (mark_processed 5 30)
                   (world_of [(1, 10); (2, 20)] (fun _ => 0))).
Proof.
  apply (proj2 (X12_mark_processed_only_adds
                  (world_of [(1, 10); (2, 20)] (fun _ => 0)) 5 30)).
  - vm_compute. reflexivity.
  - apply elem_of_cons. now left.
  - discriminate.
Defined.

Lemma X24_missing_label_gives_zero_witness :
  v_entry (extract_entry_sl_tp "buy limit eur/usd, stop loss 1.1") = 0%F.
Proof.
  apply (proj1 (X24_missing_label_gives_zero
                  "buy limit eur/usd, stop loss 1.1")).
  vm_compute. reflexivity.
Defined.
